(** * QR platform: request pipeline, audit store and codec adapter

    A shallow embedding of [app/main.py] (a FastAPI service that generates
    and decodes QR codes, extracts text from images and keeps an audit log),
    with the properties of its specification stated and proved over it.

    The third-party libraries the handlers call (qrcode, Pillow, OpenCV,
    easyocr, zlib, base64, the template engine) are not part of the
    program: they appear as the fields of the class [Platform], and the
    facts about them that a property relies on are named laws, stated as
    hypotheses.  Everything else (control flow, exceptions, the audit
    table, the middleware, the routing) is translated from the source. *)

From Stdlib Require Import ZArith String Ascii List Bool Lia DecimalString Sorted.
From stdpp Require Import base option list gmap strings.
Import ListNotations.
Local Open Scope string_scope.
Local Open Scope Z_scope.

(** ** Text

    A Python [str] is carried as a [string]; characters outside ASCII are
    held by their UTF-8 bytes, as the literals of this file are.  [bytes]
    values are strings too. *)

Abbreviation bytes := string (only parsing).

(** [not s] for a string. *)
Definition is_empty (s : string) : bool :=
  match s with
  | EmptyString => true
  | String _ _ => false
  end.

(** [s.endswith(suffix)] *)
Definition endswith (s suffix : string) : bool :=
  let n := String.length s in
  let k := String.length suffix in
  (k <=? n)%nat && String.eqb (substring (n - k) k s) suffix.

(** [s[:-k]]: the slice that drops the last [k] characters (empty when the
    string is shorter).  It is only used under the guard
    [s.endswith("|compressed")], where the last eleven characters are the
    eleven ASCII bytes of the marker. *)
Definition drop_last (k : nat) (s : string) : string :=
  substring 0 (String.length s - k) s.

(** [len(s)]: the number of code points, that is the bytes that are not
    UTF-8 continuation bytes (10xxxxxx). *)
Fixpoint len (s : string) : Z :=
  match s with
  | EmptyString => 0
  | String c rest =>
      (if (128 <=? Z.of_nat (nat_of_ascii c)) && (Z.of_nat (nat_of_ascii c) <? 192)
       then 0 else 1) + len rest
  end.

(** [str(n)] for a non-negative integer, and [str(b)] for a boolean. *)
Definition str_of_int (n : Z) : string :=
  NilZero.string_of_uint (N.to_uint (Z.to_N n)).

Definition str_of_bool (b : bool) : string :=
  if b then "True" else "False".

(** [sep.join(parts)] *)
Fixpoint join (sep : string) (parts : list string) : string :=
  match parts with
  | [] => ""
  | [p] => p
  | p :: rest => p ++ sep ++ join sep rest
  end.

Definition LF : string := String (ascii_of_nat 10) EmptyString.
Definition CRLF : string := String (ascii_of_nat 13) LF.
Definition QUOTE : ascii := ascii_of_nat 34.

(** ** Exceptions

    The exceptions the handlers raise, catch or let through.  [Error]
    stands for any other subclass of [Exception] and carries its [str()]. *)

Inductive exn : Type :=
| HTTPException (status_code : Z) (detail : string)
| RateLimitExceeded (limit : string)
| DataOverflowError (message : string)
| Error (message : string).

(** ** The audit table

    [CREATE TABLE logs (id INTEGER PRIMARY KEY AUTOINCREMENT, ip, timestamp,
    action, details)].  Rows are kept in insertion order; [last_id] is the
    autoincrement counter; [failing] says that the connection raises on
    every statement (the situation the [try]/[except] blocks around the
    statements are written for); [commit_failing] says that [conn.commit()]
    raises although the statement before it went through. *)

Record AuditRecord : Type := mkAuditRecord {
  id : Z;
  ip : string;
  timestamp : Z;
  action : string;
  details : string
}.

Record Store : Type := mkStore {
  rows : list AuditRecord;
  last_id : Z;
  failing : bool;
  commit_failing : bool
}.

(** ** The QR code object of the qrcode library

    The attributes the handler sets or the library fills in. *)

Inductive ErrorCorrection : Type :=
| ERROR_CORRECT_L
| ERROR_CORRECT_M
| ERROR_CORRECT_Q
| ERROR_CORRECT_H.

(** The levels in increasing redundancy (7%, 15%, 25%, 30% of the symbol),
    hence in decreasing data capacity. *)
Definition ec_rank (e : ErrorCorrection) : Z :=
  match e with
  | ERROR_CORRECT_L => 0
  | ERROR_CORRECT_M => 1
  | ERROR_CORRECT_Q => 2
  | ERROR_CORRECT_H => 3
  end.

Record QRCode : Type := mkQRCode {
  version : option Z;
  error_correction : ErrorCorrection;
  box_size : Z;
  border : Z;
  data_list : list string;
  modules : list (list bool)
}.

(** [qr.add_data(data)] *)
Definition add_data (qr : QRCode) (data : string) : QRCode :=
  {| version := version qr; error_correction := error_correction qr;
     box_size := box_size qr; border := border qr;
     data_list := data_list qr ++ [data]; modules := modules qr |}.

(** [qr.error_correction = level] *)
Definition set_error_correction (qr : QRCode) (level : ErrorCorrection) : QRCode :=
  {| version := version qr; error_correction := level;
     box_size := box_size qr; border := border qr;
     data_list := data_list qr; modules := modules qr |}.

(** ** The world a request runs in

    The system clock (seconds), the audit store, the windows of the rate
    limiter, and the log of the calls made to the three external
    capabilities (encoder, decoder, recognizer), oldest first. *)

Record RateLimitWindow : Type := mkWindow {
  count : Z;
  window_start : Z
}.

Inductive Call : Type :=
| CallMake (qr : QRCode)
| CallDetectAndDecode
| CallReadText.

Record World : Type := mkWorld {
  clock : Z;
  store : Store;
  windows : gmap (string * string) RateLimitWindow;
  calls : list Call
}.

Definition set_clock (w : World) (t : Z) : World :=
  {| clock := t; store := store w; windows := windows w; calls := calls w |}.

Definition set_store (w : World) (s : Store) : World :=
  {| clock := clock w; store := s; windows := windows w; calls := calls w |}.

Definition set_windows (w : World) (m : gmap (string * string) RateLimitWindow) : World :=
  {| clock := clock w; store := store w; windows := m; calls := calls w |}.

Definition record_call (c : Call) (w : World) : World :=
  {| clock := clock w; store := store w; windows := windows w; calls := calls w ++ [c] |}.

(** ** Computations that change the world and may raise

    A raised exception keeps the changes made before it, as in Python. *)

Definition M (A : Type) : Type := World -> (exn + A) * World.

#[global] Instance M_ret : MRet M := fun A (a : A) w => (inr a, w).

#[global] Instance M_bind : MBind M := fun A B (k : A -> M B) (m : M A) w =>
  match m w with
  | (inr a, w') => k a w'
  | (inl e, w') => (inl e, w')
  end.

Definition raise {A} (e : exn) : M A := fun w => (inl e, w).

(** [try: body / except Exception as e: handler(e)] *)
Definition try_except {A} (body : M A) (handler : exn -> M A) : M A :=
  fun w =>
    match body w with
    | (inr a, w') => (inr a, w')
    | (inl e, w') => handler e w'
    end.

(** A call into a library, which returns or raises. *)
Definition call {A} (r : exn + A) : M A := fun w => (r, w).

(** ** Requests and responses *)

Inductive Method : Type := GET | POST | OtherMethod.

(** The parameters FastAPI hands to an endpoint once the form has been
    parsed and the defaults filled in. *)
Inductive Params : Type :=
| NoParams
| GenerateParams (text : string) (compress : bool) (color bg_color : string)
                 (logo : option bytes)
| UploadParams (image : bytes).

Record Request : Type := mkRequest {
  client_host : string;
  arrival : Z;
  method : Method;
  path : string;
  params : Params
}.

Inductive JsonValue : Type :=
| JStr (s : string)
| JInt (n : Z).

Inductive Content : Type :=
| Stream (media_type : string) (data : string)
| Json (fields : list (string * JsonValue))
| Html (page : string)
| PlainText (text : string).

Record Response : Type := mkResponse {
  status : Z;
  content : Content
}.

Definition StreamingResponse (buf media_type : string) : Response :=
  {| status := 200; content := Stream media_type buf |}.

Definition JSONResponse (status_code : Z) (fields : list (string * JsonValue)) : Response :=
  {| status := status_code; content := Json fields |}.

Record StatsSnapshot : Type := mkStats {
  generations : Z;
  decodings : Z;
  ocr_extractions : Z;
  unique_users : Z
}.

Definition DEFAULT_COLOR : string := "#000000".
Definition DEFAULT_BG_COLOR : string := "#FFFFFF".

(** ** The libraries

    Each field is one library entry point the program calls; a result of
    type [exn + A] is a call that may raise.  Factors of the image
    enhancers (3.0, 2.0) are carried as integers. *)

Class Platform : Type := {
  (* Python text and byte codecs *)
  utf8_encode : string -> bytes;
  utf8_decode : bytes -> exn + string;
  zlib_compress : bytes -> bytes;
  zlib_decompress : bytes -> exn + bytes;
  b64encode : bytes -> bytes;
  b64decode : string -> exn + bytes;
  strip : string -> string;
  (* str() of an HTTPException, and the text sqlite3 stores for a datetime *)
  HTTPException_str : Z -> string -> string;
  datetime_text : Z -> string;
  (* Pillow and numpy *)
  Image : Type;
  ndarray : Type;
  Image_open : bytes -> exn + Image;
  convert : Image -> string -> exn + Image;
  Contrast_enhance : Image -> Z -> exn + Image;
  Sharpness_enhance : Image -> Z -> exn + Image;
  np_array : Image -> exn + ndarray;
  Image_size : Image -> Z * Z;
  resize : Image -> Z * Z -> exn + Image;
  paste : Image -> Image -> Z * Z -> Image -> exn + Image;
  save : Image -> string -> exn + bytes;
  (* qrcode: make(fit=True) returns or raises, and either way leaves in the
     object the version it settled on and the modules it drew *)
  make : QRCode -> (exn + unit) * (option Z * list (list bool));
  make_image : QRCode -> string -> string -> exn + Image;
  (* OpenCV: the decoded text of detectAndDecode, empty when none is found *)
  detectAndDecode : ndarray -> exn + string;
  (* easyocr *)
  Reader : Type;
  BBox : Type;
  Confidence : Type;
  easyocr_Reader : list string -> bool -> exn + Reader;
  readtext : Reader -> ndarray -> exn + list (BBox * string * Confidence);
  (* Jinja2 templates, and what the static files mount answers for a path *)
  TemplateResponse : string -> StatsSnapshot -> exn + Response;
  StaticFiles : string -> Response
}.

Section Program.
Context `{Platform}.

(** [str(e)] *)
Definition str (e : exn) : string :=
  match e with
  | HTTPException status_code detail => HTTPException_str status_code detail
  | RateLimitExceeded limit => HTTPException_str 429 limit
  | DataOverflowError message => message
  | Error message => message
  end.

(** ** The audit store *)

(** [cursor.execute("INSERT INTO logs ...")] *)
Definition insert_log (ip action details : string) : M unit := fun w =>
  let s := store w in
  if failing s then (inl (Error "sqlite3.OperationalError"), w)
  else
    let r := {| id := last_id s + 1; ip := ip; timestamp := clock w;
                action := action; details := details |} in
    (inr tt, set_store w {| rows := rows s ++ [r]; last_id := last_id s + 1;
                            failing := failing s;
                            commit_failing := commit_failing s |}).

(** [conn.commit()]: when it raises, the row of the statement before it is
    already in the table. *)
Definition commit : M unit := fun w =>
  if commit_failing (store w) then (inl (Error "sqlite3.OperationalError"), w)
  else (inr tt, w).

(** [cursor.execute("SELECT COUNT(*) FROM logs WHERE action = ?"); fetchone()[0]] *)
Definition select_count_action (a : string) : M Z := fun w =>
  let s := store w in
  if failing s then (inl (Error "sqlite3.OperationalError"), w)
  else (inr (Z.of_nat (length (filter (fun r => action r = a) (rows s)))), w).

(** [cursor.execute("SELECT COUNT(DISTINCT ip) FROM logs"); fetchone()[0]] *)
Definition select_count_distinct_ip : M Z := fun w =>
  let s := store w in
  if failing s then (inl (Error "sqlite3.OperationalError"), w)
  else (inr (Z.of_nat (length (remove_dups (ip <$> rows s)))), w).

(** [cursor.execute("SELECT * FROM logs"); cursor.fetchall()] *)
Definition select_all : M (list AuditRecord) := fun w =>
  let s := store w in
  if failing s then (inl (Error "sqlite3.OperationalError"), w)
  else (inr (rows s), w).

Definition log_action (ip action details : string) : M unit :=
  try_except (insert_log ip action details;; commit) (fun e => mret tt).

Definition NO_STATS : StatsSnapshot :=
  {| generations := 0; decodings := 0; ocr_extractions := 0; unique_users := 0 |}.

Definition get_stats : M StatsSnapshot :=
  try_except
    (gen_count ← select_count_action "generate";
     dec_count ← select_count_action "decode";
     ocr_count ← select_count_action "ocr";
     unique_ips ← select_count_distinct_ip;
     mret {| generations := gen_count; decodings := dec_count;
             ocr_extractions := ocr_count; unique_users := unique_ips |})
    (fun e => mret NO_STATS).

(** ** The endpoints *)

(** [qrcode.QRCode(version=..., error_correction=..., box_size=..., border=...)] *)
Definition QRCode_new (version : option Z) (error_correction : ErrorCorrection)
    (box_size border : Z) : QRCode :=
  {| version := version; error_correction := error_correction;
     box_size := box_size; border := border; data_list := []; modules := [] |}.

(** The object after [qr.make(fit=True)]. *)
Definition after_make (qr : QRCode) : QRCode :=
  {| version := fst (snd (make qr)); error_correction := error_correction qr;
     box_size := box_size qr; border := border qr;
     data_list := data_list qr; modules := snd (snd (make qr)) |}.

(** [qr.make(fit=True)]: a call to the encoder.  The outcome is returned
    with the object as the call left it, so that the [except] clause of the
    caller goes on with that object. *)
Definition make_fit (qr : QRCode) : M ((exn + unit) * QRCode) := fun w =>
  (inr (fst (make qr), after_make qr), record_call (CallMake qr) w).

(** [detector.detectAndDecode(img_np)]: a call to the decoder. *)
Definition detect (img_np : ndarray) : M string := fun w =>
  (detectAndDecode img_np, record_call CallDetectAndDecode w).

(** [reader.readtext(img_np)]: a call to the recognizer. *)
Definition read_text (reader : Reader) (img_np : ndarray)
  : M (list (BBox * string * Confidence)) := fun w =>
  (readtext reader img_np, record_call CallReadText w).

(** [POST /generate] *)
Definition generate_qr (request : Request) (text : string) (compress : bool)
    (color bg_color : string) (logo : option bytes) : M Response :=
  let ip := client_host request in
  try_except
    ((if is_empty text then raise (HTTPException 400 "文本不能为空") else mret tt);;
     data ← (if compress
             then b64 ← call (utf8_decode (b64encode (zlib_compress (utf8_encode text))));
                  mret (b64 ++ "|compressed")
             else mret text);
     let qr := add_data (QRCode_new None ERROR_CORRECT_L 10 4) data in
     '(outcome, qr) ← make_fit qr;
     qr ← match outcome with
          | inr _ => mret qr
          | inl (DataOverflowError _) =>
              let qr := set_error_correction qr ERROR_CORRECT_M in
              '(outcome, qr) ← make_fit qr;
              match outcome with
              | inr _ => mret qr
              | inl (DataOverflowError _) =>
                  raise (HTTPException 400
                    "文本过长，超出 QR 码容量限制，请缩短文本或启用压缩")
              | inl e => raise e
              end
          | inl e => raise e
          end;
     img ← call (make_image qr color bg_color);
     img ← match logo with
           | Some file =>
               try_except
                 (logo_img ← call (Image_open file);
                  logo_img ← call (convert logo_img "RGBA");
                  let logo_size := Z.min (fst (Image_size img)) (snd (Image_size img)) / 4 in
                  logo_img ← call (resize logo_img (logo_size, logo_size));
                  let pos := ((fst (Image_size img) - logo_size) / 2,
                              (snd (Image_size img) - logo_size) / 2) in
                  call (paste img logo_img pos logo_img))
                 (fun e => raise (HTTPException 400 "Logo 图像处理失败"))
           | None => mret img
           end;
     buf ← call (save img "PNG");
     log_action ip "generate"
       ("文本长度: " ++ str_of_int (len text) ++ ", 压缩: " ++ str_of_bool compress);;
     mret (StreamingResponse buf "image/png"))
    (fun e =>
       log_action ip "generate_error" (str e);;
       raise (HTTPException 400 (str e))).

(** [POST /decode] *)
Definition decode_qr (request : Request) (image : bytes) : M Response :=
  let ip := client_host request in
  try_except
    (img ← call (Image_open image);
     img ← call (convert img "L");
     img ← call (Contrast_enhance img 3);
     img ← call (Sharpness_enhance img 2);
     img_np ← call (np_array img);
     data ← detect img_np;
     (if is_empty data then raise (HTTPException 400 "未检测到二维码") else mret tt);;
     data ← (if endswith data "|compressed"
             then try_except
                    (decoded ← call (b64decode (drop_last 11 data));
                     inflated ← call (zlib_decompress decoded);
                     call (utf8_decode inflated))
                    (fun e => raise (HTTPException 400 "解压失败，无效的压缩数据"))
             else mret data);
     log_action ip "decode" "标准解码成功";;
     mret (JSONResponse 200 [("decoded", JStr data)]))
    (fun e =>
       log_action ip "decode_error" (str e);;
       raise (HTTPException 400 (str e))).

(** [POST /ocr] *)
Definition ocr_image (request : Request) (image : bytes) : M Response :=
  let ip := client_host request in
  try_except
    (img ← call (Image_open image);
     img ← call (convert img "RGB");
     img ← call (Contrast_enhance img 2);
     img ← call (Sharpness_enhance img 2);
     reader ← call (easyocr_Reader ["en"; "ch_sim"] false);
     img_np ← call (np_array img);
     result ← read_text reader img_np;
     let text := strip (join LF (map (fun res => snd (fst res)) result)) in
     (if is_empty text then raise (HTTPException 400 "未检测到文字或图表内容") else mret tt);;
     log_action ip "ocr" "OCR 提取成功";;
     mret (JSONResponse 200 [("text", JStr text)]))
    (fun e =>
       log_action ip "ocr_error" (str e);;
       raise (HTTPException 400 (str e))).

(** [GET /] *)
Definition home (request : Request) : M Response :=
  try_except
    (stats ← get_stats;
     call (TemplateResponse "index.html" stats))
    (fun e => raise (HTTPException 500 "内部服务器错误")).

(** [GET /stats] *)
Definition stats : M Response :=
  s ← get_stats;
  mret (JSONResponse 200
          [("generations", JInt (generations s)); ("decodings", JInt (decodings s));
           ("ocr_extractions", JInt (ocr_extractions s));
           ("unique_users", JInt (unique_users s))]).

(** *** CSV export

    [csv.writer] with its default dialect: a cell is quoted when it holds a
    comma, a quote or a line break, quotes inside it are doubled, cells are
    joined by commas and the row ends in CR LF. *)

Fixpoint csv_needs_quote (s : string) : bool :=
  match s with
  | EmptyString => false
  | String c rest =>
      Ascii.eqb c "," || Ascii.eqb c QUOTE || Ascii.eqb c (ascii_of_nat 13)
      || Ascii.eqb c (ascii_of_nat 10) || csv_needs_quote rest
  end.

Fixpoint csv_double_quotes (s : string) : string :=
  match s with
  | EmptyString => EmptyString
  | String c rest =>
      if Ascii.eqb c QUOTE then String QUOTE (String QUOTE (csv_double_quotes rest))
      else String c (csv_double_quotes rest)
  end.

Definition csv_cell (s : string) : string :=
  if csv_needs_quote s
  then String QUOTE (csv_double_quotes s ++ String QUOTE EmptyString)
  else s.

(** [writer.writerow(cells)] *)
Definition writerow (cells : list string) : string :=
  join "," (map csv_cell cells) ++ CRLF.

(** [writer.writerows(table)] *)
Definition writerows (table : list (list string)) : string :=
  String.concat "" (map writerow table).

(** The cells of a fetched row, as the writer prints them. *)
Definition row_cells (r : AuditRecord) : list string :=
  [str_of_int (id r); ip r; datetime_text (timestamp r); action r; details r].

Definition CSV_HEADER : list string := ["ID"; "IP"; "时间戳"; "操作"; "详情"].

(** [GET /logs/export] *)
Definition export_logs : M Response :=
  try_except
    (fetched ← select_all;
     let buf := writerow CSV_HEADER ++ writerows (map row_cells fetched) in
     mret (StreamingResponse buf "text/csv"))
    (fun e => raise (HTTPException 500 "日志导出失败")).

(** [GET /health] *)
Definition health : M Response :=
  mret (JSONResponse 200 [("status", JStr "ok")]).

(** ** The rate limiter *)

Definition QUOTA : Z := 5.
Definition WINDOW : Z := 60.

(** Modelled from the spec: the limiter behind [@limiter.limit("5/minute")]
    is the slowapi library, which is not part of the program.  The spec
    (§3, §4.1) gives it one [RateLimitWindow {count, window_start}] per
    (client key, endpoint) pair, created by the first request, reset when
    the window has elapsed, and letting 5 calls through per 60-second window. *)
Definition hit (key : string * string) : M bool := fun w =>
  let now := clock w in
  let fresh := set_windows w (<[key := mkWindow 1 now]> (windows w)) in
  match windows w !! key with
  | Some win =>
      if now <? window_start win + WINDOW then
        if count win <? QUOTA then
          (inr true,
           set_windows w (<[key := mkWindow (count win + 1) (window_start win)]> (windows w)))
        else (inr false, w)
      else (inr true, fresh)
  | None => (inr true, fresh)
  end.

(** [@limiter.limit("5/minute")] around an endpoint: the key is the remote
    address, the scope is the endpoint. *)
Definition limit (scope : string) (request : Request) (endpoint : M Response)
  : M Response :=
  hit (client_host request, scope) ≫= fun allowed : bool =>
  if allowed then endpoint else raise (RateLimitExceeded "5 per 1 minute").

(** ** Routing, exception handlers and the middleware *)

(** The routes of the application, in the order they are registered.  A
    path with the wrong method is answered 405, parameters that do not
    validate 422, an unknown path 404; all three are raised before any
    endpoint (and its limiter) runs. *)
Definition dispatch (request : Request) : M Response :=
  let p := path request in
  if String.prefix "/static/" p then mret (StaticFiles p)
  else if String.eqb p "/" then
    match method request with
    | GET => home request
    | _ => raise (HTTPException 405 "Method Not Allowed")
    end
  else if String.eqb p "/generate" then
    match method request, params request with
    | POST, GenerateParams text compress color bg_color logo =>
        limit "/generate" request (generate_qr request text compress color bg_color logo)
    | POST, _ => raise (HTTPException 422 "Unprocessable Entity")
    | _, _ => raise (HTTPException 405 "Method Not Allowed")
    end
  else if String.eqb p "/decode" then
    match method request, params request with
    | POST, UploadParams image => limit "/decode" request (decode_qr request image)
    | POST, _ => raise (HTTPException 422 "Unprocessable Entity")
    | _, _ => raise (HTTPException 405 "Method Not Allowed")
    end
  else if String.eqb p "/ocr" then
    match method request, params request with
    | POST, UploadParams image => limit "/ocr" request (ocr_image request image)
    | POST, _ => raise (HTTPException 422 "Unprocessable Entity")
    | _, _ => raise (HTTPException 405 "Method Not Allowed")
    end
  else if String.eqb p "/stats" then
    match method request with
    | GET => stats
    | _ => raise (HTTPException 405 "Method Not Allowed")
    end
  else if String.eqb p "/logs/export" then
    match method request with
    | GET => export_logs
    | _ => raise (HTTPException 405 "Method Not Allowed")
    end
  else if String.eqb p "/health" then
    match method request with
    | GET => health
    | _ => raise (HTTPException 405 "Method Not Allowed")
    end
  else raise (HTTPException 404 "Not Found").

(** The exception handlers of the application: [HTTPException] becomes a
    response with its status and detail, [RateLimitExceeded] goes to
    [_rate_limit_exceeded_handler]; anything else passes through. *)
Definition call_next (request : Request) : M Response :=
  try_except (dispatch request)
    (fun e =>
       match e with
       | HTTPException status_code detail =>
           mret (JSONResponse status_code [("detail", JStr detail)])
       | RateLimitExceeded limit =>
           mret (JSONResponse 429 [("error", JStr ("Rate limit exceeded: " ++ limit))])
       | _ => raise e
       end).

(** [path in paths] *)
Definition path_in (p : string) (paths : list string) : bool :=
  existsb (String.eqb p) paths.

(** The [http] middleware. *)
Definition log_requests (request : Request) : M Response :=
  let ip := client_host request in
  try_except
    (response ← call_next request;
     (if negb (path_in (path request) ["/generate"; "/decode"; "/ocr"])
      then log_action ip "access" ("访问 " ++ path request)
      else mret tt);;
     mret response)
    (fun e => raise e).

(** One request served at its arrival time; an exception that leaves the
    middleware is answered 500 by the server. *)
Definition serve (w : World) (request : Request) : Response * World :=
  match log_requests request (set_clock w (arrival request)) with
  | (inr response, w') => (response, w')
  | (inl e, w') => ({| status := 500; content := PlainText "Internal Server Error" |}, w')
  end.

(** Requests served one after the other. *)
Fixpoint run (w : World) (requests : list Request) : list Response * World :=
  match requests with
  | [] => ([], w)
  | r :: rest =>
      let '(response, w') := serve w r in
      let '(responses, w'') := run w' rest in
      (response :: responses, w'')
  end.

End Program.

(** The world at start-up: the table has just been created. *)
Definition initial_world : World :=
  {| clock := 0;
     store := {| rows := []; last_id := 0; failing := false; commit_failing := false |};
     windows := ∅; calls := [] |}.

(** ** Reading the program

    Definitions the statements below are written with: the laws assumed of
    the libraries, and names for the intermediate values of the handlers. *)

Definition and_then {A B} (r : exn + A) (k : A -> exn + B) : exn + B :=
  match r with
  | inl e => inl e
  | inr a => k a
  end.

(** The world after [log_action]: one more row, or the same world when the
    store refuses the statement. *)
Definition logged (ip action details : string) (w : World) : World :=
  snd (log_action ip action details w).

#[global] Arguments logged : simpl never.

Section Reading.
Context `{Platform}.

(** What the decoder finds in an upload: the library calls [decode_qr]
    makes before it looks at the text. *)
Definition scan (image : bytes) : exn + string :=
  and_then (Image_open image) (fun img =>
  and_then (convert img "L") (fun img =>
  and_then (Contrast_enhance img 3) (fun img =>
  and_then (Sharpness_enhance img 2) (fun img =>
  and_then (np_array img) detectAndDecode)))).

(** A symbol that the encoder made, drawn black on white and saved as PNG,
    is read back by the decoder as the data that went in. *)
Definition qr_round_trip_law : Prop :=
  forall qr, box_size qr = 10 -> border qr = 4 -> fst (make qr) = inr tt ->
    exists img png,
      make_image (after_make qr) DEFAULT_COLOR DEFAULT_BG_COLOR = inr img /\
      save img "PNG" = inr png /\
      scan png = inr (String.concat "" (data_list qr)).

Definition utf8_law : Prop :=
  forall s, utf8_decode (utf8_encode s) = inr s.

Definition zlib_law : Prop :=
  forall b, zlib_decompress (zlib_compress b) = inr b.

(** Base64 output is ASCII text, and decodes to the bytes that went in. *)
Definition base64_law : Prop :=
  forall b, exists s, utf8_decode (b64encode b) = inr s /\ b64decode s = inr b.

(** ** Reading the handlers *)

Definition overflows (outcome : exn + unit) : bool :=
  match outcome with
  | inl (DataOverflowError _) => true
  | _ => false
  end.

(** The data [generate_qr] hands to the encoder. *)
Definition payload (text : string) (compress : bool) : exn + string :=
  if compress
  then and_then (utf8_decode (b64encode (zlib_compress (utf8_encode text))))
         (fun b64 => inr (b64 ++ "|compressed"))
  else inr text.

(** The object of the first call to the encoder, and of the second. *)
Definition first_try (data : string) : QRCode :=
  add_data (QRCode_new None ERROR_CORRECT_L 10 4) data.

Definition second_try (data : string) : QRCode :=
  set_error_correction (after_make (first_try data)) ERROR_CORRECT_M.

(** What [qrcode]'s [make(fit=True)] does at the end of its version table
    ([best_fit] and [check_version] of the library): a call that raises
    [DataOverflowError] leaves the object at version 41, and a call on an
    object at version 41 raises [ValueError], which no
    [except DataOverflowError] clause catches. *)
Definition qrcode_version_law : Prop :=
  forall qr,
    (overflows (fst (make qr)) = true -> fst (snd (make qr)) = Some 41) /\
    (version qr = Some 41 -> exists message, fst (make qr) = inl (Error message)).

(** The data fits the symbol at the first level, or overflows it and fits
    at the second. *)
Definition fits (data : string) : Prop :=
  fst (make (first_try data)) = inr tt \/
  (overflows (fst (make (first_try data))) = true /\
   fst (make (second_try data)) = inr tt).

(** What [decode_qr] does with a payload that ends with the marker. *)
Definition unpack (data : string) : exn + string :=
  and_then (b64decode (drop_last 11 data)) (fun decoded =>
  and_then (zlib_decompress decoded) utf8_decode).

(** What the recognizer finds in an upload: the library calls [ocr_image]
    makes, and the lines joined and stripped. *)
Definition recognized (image : bytes) : exn + string :=
  and_then (Image_open image) (fun img =>
  and_then (convert img "RGB") (fun img =>
  and_then (Contrast_enhance img 2) (fun img =>
  and_then (Sharpness_enhance img 2) (fun img =>
  and_then (easyocr_Reader ["en"; "ch_sim"] false) (fun reader =>
  and_then (np_array img) (fun img_np =>
  and_then (readtext reader img_np) (fun result =>
  inr (strip (join LF (map (fun res => snd (fst res)) result)))))))))).

Definition decode_reply (request : Request) (data : string) : M Response :=
  log_action (client_host request) "decode" "标准解码成功";;
  mret (JSONResponse 200 [("decoded", JStr data)]).

Definition decode_failure (request : Request) (e : exn) : M Response :=
  log_action (client_host request) "decode_error" (str e);;
  raise (HTTPException 400 (str e)).

Definition EMPTY_TEXT_DETAIL : string := "文本不能为空".
Definition CAPACITY_DETAIL : string :=
  "文本过长，超出 QR 码容量限制，请缩短文本或启用压缩".
Definition NO_SYMBOL_DETAIL : string := "未检测到二维码".
Definition DECOMPRESSION_DETAIL : string := "解压失败，无效的压缩数据".
Definition LOGO_DETAIL : string := "Logo 图像处理失败".
Definition NO_TEXT_DETAIL : string := "未检测到文字或图表内容".

(** The calls [generate_qr] makes to the encoder for a payload. *)
Definition encoder_calls (data : string) : list Call :=
  CallMake (first_try data) ::
  (if overflows (fst (make (first_try data))) then [CallMake (second_try data)] else []).

Definition generate_details (text : string) (compress : bool) : string :=
  "文本长度: " ++ str_of_int (len text) ++ ", 压缩: " ++ str_of_bool compress.

(** Whatever happens inside an endpoint, it returns a 200 response or
    raises [HTTPException] with status 400 and the text of what it caught. *)
Definition handled (result : (exn + Response) * World) : Prop :=
  match fst result with
  | inr response => status response = 200
  | inl e => exists caught, e = HTTPException 400 (str caught)
  end.

(** *** The pipeline *)

Definition LIMITED_PATHS : list string := ["/generate"; "/decode"; "/ocr"].

Inductive Operation : Type := Generate | Decode | Ocr.

#[global] Instance Operation_eq_dec : EqDecision Operation.
Proof. solve_decision. Defined.

Definition op_path (op : Operation) : string :=
  match op with
  | Generate => "/generate"
  | Decode => "/decode"
  | Ocr => "/ocr"
  end.

Definition op_action (op : Operation) : string :=
  match op with
  | Generate => "generate"
  | Decode => "decode"
  | Ocr => "ocr"
  end.

(** The limited endpoint a request is handed to, if any: the path and the
    method are those of the route and the parameters validate. *)
Definition operation_of (request : Request) : option Operation :=
  match method request, params request with
  | POST, GenerateParams _ _ _ _ _ =>
      if String.eqb (path request) "/generate" then Some Generate else None
  | POST, UploadParams _ =>
      if String.eqb (path request) "/decode" then Some Decode
      else if String.eqb (path request) "/ocr" then Some Ocr
      else None
  | _, _ => None
  end.

(** The endpoint behind the limiter for such a request. *)
Definition endpoint (request : Request) : M Response :=
  match params request with
  | GenerateParams text compress color bg_color logo =>
      generate_qr request text compress color bg_color logo
  | UploadParams image =>
      if String.eqb (path request) "/decode" then decode_qr request image
      else ocr_image request image
  | NoParams => raise (HTTPException 422 "Unprocessable Entity")
  end.

(** The response the exception handlers make of what an endpoint did. *)
Definition reply (result : exn + Response) : Response :=
  match result with
  | inr response => response
  | inl (HTTPException status_code detail) =>
      JSONResponse status_code [("detail", JStr detail)]
  | inl (RateLimitExceeded limit) =>
      JSONResponse 429 [("error", JStr ("Rate limit exceeded: " ++ limit))]
  | inl _ => {| status := 500; content := PlainText "Internal Server Error" |}
  end.

Definition TOO_MANY_REQUESTS : Response :=
  JSONResponse 429 [("error", JStr "Rate limit exceeded: 5 per 1 minute")].

(** The store after an insert at time [t]: one more row, unless the
    statement raises (a commit that raises afterwards leaves the row). *)
Definition written (s : Store) (t : Z) (ip action details : string) : Store :=
  if failing s then s
  else {| rows := rows s ++ [ {| id := last_id s + 1; ip := ip; timestamp := t;
                                 action := action; details := details |} ];
          last_id := last_id s + 1; failing := failing s;
          commit_failing := commit_failing s |}.

(** What [get_stats] reports for a store. *)
Definition snapshot (s : Store) : StatsSnapshot :=
  if failing s then NO_STATS
  else {| generations := Z.of_nat (length (filter (fun r => action r = "generate") (rows s)));
          decodings := Z.of_nat (length (filter (fun r => action r = "decode") (rows s)));
          ocr_extractions := Z.of_nat (length (filter (fun r => action r = "ocr") (rows s)));
          unique_users := Z.of_nat (length (remove_dups (ip <$> rows s))) |}.

(** The request is one of client [host] to the limited endpoint [op]. *)
Definition targets (host : string) (op : Operation) (request : Request) : bool :=
  String.eqb (client_host request) host && bool_decide (operation_of request = Some op).

(** For the requests of [host] to [op] among those served, in order: was
    the answer 429? *)
Definition verdicts (host : string) (op : Operation) (requests : list Request)
    (responses : list Response) : list bool :=
  map (fun p => status (snd p) =? 429)
      (List.filter (fun p => targets host op (fst p)) (combine requests responses)).

(** No window of the key is open at time [t]. *)
Definition no_open_window (w : World) (key : string * string) (t : Z) : Prop :=
  match windows w !! key with
  | Some win => window_start win + WINDOW <= t
  | None => True
  end.

Definition set_failing (w : World) (b : bool) : World :=
  set_store w {| rows := rows (store w); last_id := last_id (store w); failing := b;
                 commit_failing := commit_failing (store w) |}.

Definition set_commit_failing (w : World) (b : bool) : World :=
  set_store w {| rows := rows (store w); last_id := last_id (store w);
                 failing := failing (store w); commit_failing := b |}.

(** The worlds the service can be in: it starts with an empty table,
    serves requests, and its store may start or stop failing, in either
    way, at any time. *)
Inductive reachable : World -> Prop :=
| reach_start : reachable initial_world
| reach_serve (w : World) (request : Request) :
    reachable w -> reachable (snd (serve w request))
| reach_fault (w : World) (b : bool) :
    reachable w -> reachable (set_failing w b)
| reach_commit_fault (w : World) (b : bool) :
    reachable w -> reachable (set_commit_failing w b).

(** Ids grow along the table and none exceeds the autoincrement counter. *)
Definition ids_ascend (s : Store) : Prop :=
  StronglySorted Z.lt (map id (rows s)) /\ Forall (fun r => id r <= last_id s) (rows s).

(** An endpoint leaves the limiter and the clock alone and writes through
    one [log_action]: the success action when it returns, and when it
    raises, the error action with the text of what it caught, which is also
    the detail of the 400 it raises. *)
Definition audited (host action : string) (w : World)
    (result : (exn + Response) * World) : Prop :=
  windows (snd result) = windows w /\
  clock (snd result) = clock w /\
  match fst result with
  | inr response =>
      status response = 200 /\
      exists details,
        store (snd result) = written (store w) (clock w) host action details
  | inl e =>
      exists caught,
        e = HTTPException 400 (str caught) /\
        store (snd result) =
          written (store w) (clock w) host (action ++ "_error") (str caught)
  end.

(** The window of [key] after [j] requests of the window that began at or
    after [t0]. *)
Definition open_after (j : nat) (t0 : Z) (key : string * string) (w : World) : Prop :=
  match j with
  | O => no_open_window w key t0
  | S _ =>
      exists s, windows w !! key = Some (mkWindow (Z.of_nat (Nat.min j 5)) s) /\ t0 <= s
  end.

(** The requests among [requests] that are handed to [op]. *)
Definition handed_to (op : Operation) (requests : list Request) : nat :=
  length (filter (fun r => operation_of r = Some op) requests).

End Reading.

(** *** The logo

    The side of the logo and the corner it is pasted at, for an image of
    the given size: [min(img.size) // 4] and
    [((img.size[0] - logo_size) // 2, (img.size[1] - logo_size) // 2)]. *)
Definition logo_side (size : Z * Z) : Z :=
  Z.min (fst size) (snd size) / 4.

Definition logo_corner (size : Z * Z) : Z * Z :=
  ((fst size - logo_side size) / 2, (snd size - logo_side size) / 2).

(** The fields of the [/stats] answer. *)
Definition stats_fields (s : StatsSnapshot) : list (string * JsonValue) :=
  [("generations", JInt (generations s)); ("decodings", JInt (decodings s));
   ("ocr_extractions", JInt (ocr_extractions s)); ("unique_users", JInt (unique_users s))].

(** The i-th row has id i + 1, and the counter is the number of rows. *)
Definition ids_count_up (s : Store) : Prop :=
  (forall i r, rows s !! i = Some r -> id r = Z.of_nat i + 1) /\
  last_id s = Z.of_nat (length (rows s)).

(** ** A stub platform

    A test double for the libraries (spec §9), small enough to run inside
    Rocq: an image is the text a scanner or a reader would find in it,
    base16 stands in for base64, and a compressed stream is its input
    behind the header byte [x] (0x78, the first byte of a zlib stream).
    The capacities are those of a version-40 symbol in byte mode. *)

Module Stub.

Inductive StubImage : Type :=
| Symbol (payload : string)
| Page (text : string)
| Blank.

Definition hex_digit (n : nat) : ascii :=
  match n with
  | 0 => "0" | 1 => "1" | 2 => "2" | 3 => "3" | 4 => "4" | 5 => "5" | 6 => "6"
  | 7 => "7" | 8 => "8" | 9 => "9" | 10 => "a" | 11 => "b" | 12 => "c"
  | 13 => "d" | 14 => "e" | _ => "f"
  end%char%nat.

Definition hex_value (c : ascii) : option nat :=
  let n := nat_of_ascii c in
  if ((48 <=? n) && (n <=? 57))%nat then Some (n - 48)%nat
  else if ((97 <=? n) && (n <=? 102))%nat then Some (n - 87)%nat
  else None.

Fixpoint encode16 (b : string) : string :=
  match b with
  | EmptyString => EmptyString
  | String c rest =>
      String (hex_digit (nat_of_ascii c / 16)) (String (hex_digit (nat_of_ascii c mod 16))
        (encode16 rest))
  end.

Fixpoint decode16 (s : string) : exn + string :=
  match s with
  | EmptyString => inr EmptyString
  | String hi (String lo rest) =>
      match hex_value hi, hex_value lo, decode16 rest with
      | Some h, Some l, inr b => inr (String (ascii_of_nat (16 * h + l)) b)
      | _, _, _ => inl (Error "Incorrect padding")
      end
  | String _ EmptyString => inl (Error "Incorrect padding")
  end.

Definition inflate (b : string) : exn + string :=
  match b with
  | String "x"%char rest => inr rest
  | String _ _ => inl (Error "Error -3 while decompressing data: incorrect header check")
  | EmptyString => inl (Error "Error -5 while decompressing data: incomplete or truncated stream")
  end.

Definition is_space (c : ascii) : bool :=
  Ascii.eqb c " " || ((9 <=? nat_of_ascii c) && (nat_of_ascii c <=? 13))%nat.

Fixpoint lstrip (s : string) : string :=
  match s with
  | String c rest => if is_space c then lstrip rest else s
  | EmptyString => EmptyString
  end.

Fixpoint rstrip (s : string) : string :=
  match s with
  | String c rest =>
      match rstrip rest with
      | EmptyString => if is_space c then EmptyString else String c EmptyString
      | kept => String c kept
      end
  | EmptyString => EmptyString
  end.

Definition capacity (e : ErrorCorrection) : nat :=
  match e with
  | ERROR_CORRECT_L => 2953
  | ERROR_CORRECT_M => 2331
  | ERROR_CORRECT_Q => 1663
  | ERROR_CORRECT_H => 1273
  end.

(** [util.check_version] of the library. *)
Definition check_version (v : Z) : exn + unit :=
  if (1 <=? v) && (v <=? 40) then inr tt
  else inl (Error ("Invalid version (was " ++ str_of_int v ++ ", expected 1 to 40)")).

(** [best_fit]: the data fits version 40 at the object's level, or the
    object is left at version 41 and the call raises. *)
Definition best_fit (qr : QRCode) : (exn + unit) * (option Z * list (list bool)) :=
  if (String.length (String.concat "" (data_list qr)) <=? capacity (error_correction qr))%nat
  then (inr tt, (Some 40, [[true]]))
  else (inl (DataOverflowError ""), (Some 41, [])).

(** [make(fit=True)]: the version the object starts from is checked before
    the search, so an object left at version 41 by an earlier overflow is
    refused with [ValueError]. *)
Definition stub_make (qr : QRCode) : (exn + unit) * (option Z * list (list bool)) :=
  match version qr with
  | Some v =>
      match check_version v with
      | inl e => (inl e, (version qr, modules qr))
      | inr _ => best_fit qr
      end
  | None => best_fit qr
  end.

Definition stub_open (file : string) : exn + StubImage :=
  match file with
  | String "Q"%char payload => inr (Symbol payload)
  | String "T"%char text => inr (Page text)
  | String "B"%char EmptyString => inr Blank
  | _ => inl (Error "cannot identify image file")
  end.

Definition stub_save (img : StubImage) : string :=
  match img with
  | Symbol payload => String "Q"%char payload
  | Page text => String "T"%char text
  | Blank => "B"
  end.

(** [models] says whether the recognition models can be loaded. *)
Definition platform (models : bool) : Platform :=
  {| utf8_encode := fun s => s;
     utf8_decode := fun b => inr b;
     zlib_compress := fun b => String "x"%char b;
     zlib_decompress := inflate;
     b64encode := encode16;
     b64decode := decode16;
     strip := fun s => rstrip (lstrip s);
     HTTPException_str := fun status_code detail => str_of_int status_code ++ ": " ++ detail;
     datetime_text := str_of_int;
     Image := StubImage;
     ndarray := StubImage;
     Image_open := stub_open;
     convert := fun img _ => inr img;
     Contrast_enhance := fun img _ => inr img;
     Sharpness_enhance := fun img _ => inr img;
     np_array := fun img => inr img;
     Image_size := fun _ => (290, 290);
     resize := fun img _ => inr img;
     paste := fun img _ _ _ => inr img;
     save := fun img _ => inr (stub_save img);
     make := stub_make;
     make_image := fun qr fill back =>
       if String.eqb fill back then inr Blank
       else inr (Symbol (String.concat "" (data_list qr)));
     detectAndDecode := fun arr =>
       match arr with
       | Symbol payload => inr payload
       | _ => inr ""
       end;
     Reader := unit;
     BBox := unit;
     Confidence := unit;
     easyocr_Reader := fun _ _ =>
       if models then inr tt else inl (Error "recognition model could not be loaded");
     readtext := fun _ arr =>
       match arr with
       | Page text => inr [(tt, text, tt)]
       | _ => inr []
       end;
     TemplateResponse := fun name stats =>
       inr {| status := 200; content := Html name |};
     StaticFiles := fun _ => JSONResponse 404 [("detail", JStr "Not Found")] |}.

End Stub.

Definition sample_request (p : string) (ps : Params) : Request :=
  {| client_host := "203.0.113.7"; arrival := 1000; method := POST; path := p; params := ps |}.

(** A text longer than any symbol holds. *)
Definition oversized_text : string :=
  string_of_list_ascii (repeat "a"%char 3000).

(** Six requests of one client to [/generate] within a minute, with a
    request of another client and a request to another endpoint in between. *)
Definition burst : list Request :=
  let generate t :=
    {| client_host := "203.0.113.7"; arrival := t; method := POST; path := "/generate";
       params := GenerateParams "hello" false DEFAULT_COLOR DEFAULT_BG_COLOR None |} in
  [ generate 1000; generate 1001;
    {| client_host := "198.51.100.2"; arrival := 1002; method := POST; path := "/generate";
       params := GenerateParams "other" false DEFAULT_COLOR DEFAULT_BG_COLOR None |};
    generate 1003; generate 1010;
    {| client_host := "203.0.113.7"; arrival := 1011; method := POST; path := "/decode";
       params := UploadParams "Qhello" |};
    generate 1030; generate 1059 ].

(** Two generations and a decode by one client, an OCR call by another. *)
Definition traffic : list Request :=
  [ {| client_host := "203.0.113.7"; arrival := 1000; method := POST; path := "/generate";
       params := GenerateParams "hello" false DEFAULT_COLOR DEFAULT_BG_COLOR None |};
    {| client_host := "203.0.113.7"; arrival := 1005; method := POST; path := "/generate";
       params := GenerateParams "hello" true DEFAULT_COLOR DEFAULT_BG_COLOR None |};
    {| client_host := "203.0.113.7"; arrival := 1010; method := POST; path := "/decode";
       params := UploadParams "Q7868656c6c6f|compressed" |};
    {| client_host := "198.51.100.2"; arrival := 1020; method := POST; path := "/ocr";
       params := UploadParams "Thello" |} ].

(** * Properties *)

(** ** Facts about slices and suffixes *)

Lemma substring_whole (s : string) : substring 0 (String.length s) s = s.
Proof. induction s as [|c s IH]; simpl; [reflexivity | now rewrite IH]. Qed.

Lemma substring_app_left (s t : string) :
  substring 0 (String.length s) (s ++ t) = s.
Proof.
  induction s as [|c s IH]; simpl.
  - destruct t; reflexivity.
  - now rewrite IH.
Qed.

Lemma substring_app_right (s t : string) (n k : nat) :
  substring (String.length s + n) k (s ++ t) = substring n k t.
Proof. induction s as [|c s IH]; simpl; [reflexivity | exact IH]. Qed.

Lemma string_length_app (s t : string) :
  String.length (s ++ t) = (String.length s + String.length t)%nat.
Proof. induction s as [|c s IH]; simpl; [reflexivity | now rewrite IH]. Qed.

Lemma endswith_app (s suffix : string) : endswith (s ++ suffix) suffix = true.
Proof.
  unfold endswith. rewrite string_length_app.
  replace (String.length s + String.length suffix - String.length suffix)%nat
    with (String.length s + 0)%nat by lia.
  rewrite substring_app_right, substring_whole, String.eqb_refl, andb_true_r.
  apply Nat.leb_le. lia.
Qed.

Lemma drop_last_app (s suffix : string) :
  drop_last (String.length suffix) (s ++ suffix) = s.
Proof.
  unfold drop_last. rewrite string_length_app.
  replace (String.length s + String.length suffix - String.length suffix)%nat
    with (String.length s) by lia.
  apply substring_app_left.
Qed.

Lemma is_empty_app_r (s t : string) : is_empty t = false -> is_empty (s ++ t) = false.
Proof. destruct s; simpl; auto. Qed.

Lemma is_empty_true (s : string) : is_empty s = true <-> s = "".
Proof. destruct s; simpl; split; congruence. Qed.

Lemma log_action_returns (ip action details : string) (w : World) :
  log_action ip action details w = (inr tt, logged ip action details w).
Proof.
  unfold logged, log_action, try_except, insert_log, commit, mbind, M_bind.
  destruct w as [t [r n f c] ws cs]. destruct f, c; reflexivity.
Qed.

Ltac run_m :=
  unfold try_except, mbind, M_bind, mret, M_ret, call, raise, detect, make_fit,
    read_text, and_then in *; simpl in *; rewrite ?log_action_returns in *;
  cbn [fst snd] in *.

Ltac split_match :=
  match goal with
  | |- context [match ?x with _ => _ end] =>
      lazymatch x with
      | context [match _ with _ => _ end] => fail
      | _ => idtac
      end;
      lazymatch type of x with
      | sum _ _ => destruct x eqn:?
      | exn => destruct x eqn:?
      | bool => destruct x eqn:?
      | option _ => destruct x eqn:?
      | Method => destruct x eqn:?
      | Params => destruct x eqn:?
      | unit => destruct x
      end
  end.

Ltac name_caught :=
  first [ eexists; reflexivity
        | eexists (HTTPException _ _); reflexivity
        | eexists (RateLimitExceeded _); reflexivity
        | eexists (DataOverflowError _); reflexivity
        | eexists (Error _); reflexivity ].

Section Facts.
Context `{Platform}.

Lemma decode_qr_scanned (request : Request) (image : bytes) (w : World) (data : string) :
  scan image = inr data ->
  decode_qr request image w =
    (if is_empty data then decode_failure request (HTTPException 400 "未检测到二维码")
     else if endswith data "|compressed" then
       match unpack data with
       | inr text => decode_reply request text
       | inl _ => decode_failure request (HTTPException 400 "解压失败，无效的压缩数据")
       end
     else decode_reply request data) (record_call CallDetectAndDecode w).
Proof.
  unfold scan, decode_qr, unpack, decode_reply, decode_failure. intros Hscan. run_m.
  destruct (Image_open image) as [e|i1]; [discriminate|].
  destruct (convert i1 "L") as [e|i2]; [discriminate|].
  destruct (Contrast_enhance i2 3) as [e|i3]; [discriminate|].
  destruct (Sharpness_enhance i3 2) as [e|i4]; [discriminate|].
  destruct (np_array i4) as [e|arr]; [discriminate|].
  rewrite Hscan.
  destruct (is_empty data); [now run_m|].
  destruct (endswith data "|compressed"); [|now run_m].
  destruct (b64decode (drop_last 11 data)) as [e|b]; [now run_m|].
  destruct (zlib_decompress b) as [e|z]; [now run_m|].
  destruct (utf8_decode z) as [e|t]; now run_m.
Qed.

Lemma logged_calls (ip action details : string) (w : World) :
  calls (logged ip action details w) = calls w.
Proof.
  unfold logged, log_action, try_except, insert_log, commit, mbind, M_bind.
  destruct w as [t [r n f c] ws cs]. destruct f, c; reflexivity.
Qed.

Lemma logged_windows (ip action details : string) (w : World) :
  windows (logged ip action details w) = windows w.
Proof.
  unfold logged, log_action, try_except, insert_log, commit, mbind, M_bind.
  destruct w as [t [r n f c] ws cs]. destruct f, c; reflexivity.
Qed.

Lemma generate_qr_empty (request : Request) (compress : bool) (color bg_color : string)
    (logo : option bytes) (w : World) :
  generate_qr request "" compress color bg_color logo w =
    (inl (HTTPException 400 (str (HTTPException 400 EMPTY_TEXT_DETAIL))),
     logged (client_host request) "generate_error"
       (str (HTTPException 400 EMPTY_TEXT_DETAIL)) w).
Proof. unfold generate_qr. now run_m. Qed.

Lemma generate_qr_calls (request : Request) (text : string) (compress : bool)
    (color bg_color : string) (logo : option bytes) (w : World) :
  calls (snd (generate_qr request text compress color bg_color logo w)) =
    (calls w ++
     (if is_empty text then []
      else match payload text compress with
           | inr data => encoder_calls data
           | inl _ => []
           end))%list.
Proof.
  unfold generate_qr, payload, encoder_calls, first_try, second_try.
  destruct (is_empty text) eqn:Hempty.
  { run_m. now rewrite logged_calls, app_nil_r. }
  destruct compress.
  - run_m. destruct (utf8_decode _) as [e|b64].
    { run_m. now rewrite logged_calls, app_nil_r. }
    repeat (run_m; split_match); run_m; subst; simpl in *;
      rewrite ?logged_calls; simpl; rewrite <- ?app_assoc; try reflexivity; try discriminate.
  - repeat (run_m; split_match); run_m; subst; simpl in *;
      rewrite ?logged_calls; simpl; rewrite <- ?app_assoc; try reflexivity; try discriminate.
Qed.

(** A payload that fits is encoded, drawn and saved, and the saved image
    scans back to the payload. *)
Lemma generate_qr_fits (request : Request) (text : string) (compress : bool)
    (data : string) (w : World) :
  qr_round_trip_law ->
  is_empty text = false ->
  payload text compress = inr data ->
  fits data ->
  exists png,
    generate_qr request text compress DEFAULT_COLOR DEFAULT_BG_COLOR None w =
      (inr (StreamingResponse png "image/png"),
       logged (client_host request) "generate" (generate_details text compress)
         (fold_left (fun w c => record_call c w) (encoder_calls data) w)) /\
    scan png = inr data.
Proof.
  intros Hlaw Hempty Hpayload Hfits.
  assert (Hgoal : exists img png,
    (fst (make (first_try data)) = inr tt /\
       make_image (after_make (first_try data)) DEFAULT_COLOR DEFAULT_BG_COLOR = inr img \/
     overflows (fst (make (first_try data))) = true /\
       fst (make (second_try data)) = inr tt /\
       make_image (after_make (second_try data)) DEFAULT_COLOR DEFAULT_BG_COLOR = inr img) /\
    save img "PNG" = inr png /\ scan png = inr data).
  { destruct Hfits as [Hfirst | [Hover Hsecond]].
    - destruct (Hlaw (first_try data) eq_refl eq_refl Hfirst)
        as (img & png & Himg & Hsave & Hscan). exists img, png. auto.
    - destruct (Hlaw (second_try data) eq_refl eq_refl Hsecond)
        as (img & png & Himg & Hsave & Hscan). exists img, png. auto. }
  destruct Hgoal as (img & png & Hmake & Hsave & Hscan).
  exists png. split; [|exact Hscan]. clear Hscan Hlaw Hfits.
  unfold generate_qr, payload, encoder_calls, second_try, first_try in *.
  rewrite Hempty.
  destruct compress; run_m.
  - destruct (utf8_decode _) as [e|b64]; [discriminate|]. injection Hpayload as <-.
    destruct Hmake as [[Hfirst Himg] | (Hover & Hsecond & Himg)].
    + rewrite Hfirst. run_m. rewrite Himg, Hsave. now run_m.
    + destruct (fst (make (add_data _ _))) as [[]|]; try discriminate.
      run_m. rewrite Hsecond. run_m. rewrite Himg, Hsave. now run_m.
  - injection Hpayload as <-.
    destruct Hmake as [[Hfirst Himg] | (Hover & Hsecond & Himg)].
    + rewrite Hfirst. run_m. rewrite Himg, Hsave. now run_m.
    + destruct (fst (make (add_data _ _))) as [[]|]; try discriminate.
      run_m. rewrite Hsecond. run_m. rewrite Himg, Hsave. now run_m.
Qed.

Lemma generate_qr_overflow (request : Request) (text : string) (compress : bool)
    (color bg_color : string) (logo : option bytes) (data : string) (w : World) :
  is_empty text = false ->
  payload text compress = inr data ->
  overflows (fst (make (first_try data))) = true ->
  overflows (fst (make (second_try data))) = true ->
  generate_qr request text compress color bg_color logo w =
    (inl (HTTPException 400 (str (HTTPException 400 CAPACITY_DETAIL))),
     logged (client_host request) "generate_error" (str (HTTPException 400 CAPACITY_DETAIL))
       (record_call (CallMake (second_try data)) (record_call (CallMake (first_try data)) w))).
Proof.
  intros Hempty Hpayload Hfirst Hsecond.
  unfold generate_qr, payload, second_try, first_try in *. rewrite Hempty.
  destruct compress; run_m.
  - destruct (utf8_decode _) as [e|b64]; [discriminate|]. injection Hpayload as <-.
    destruct (fst (make (add_data _ _))) as [[]|]; try discriminate. run_m.
    destruct (fst (make (set_error_correction _ _))) as [[]|]; try discriminate. now run_m.
  - injection Hpayload as <-.
    destruct (fst (make (add_data _ _))) as [[]|]; try discriminate. run_m.
    destruct (fst (make (set_error_correction _ _))) as [[]|]; try discriminate. now run_m.
Qed.

Lemma generate_qr_retry_raises (request : Request) (text : string) (compress : bool)
    (color bg_color : string) (logo : option bytes) (data message : string) (w : World) :
  is_empty text = false ->
  payload text compress = inr data ->
  overflows (fst (make (first_try data))) = true ->
  fst (make (second_try data)) = inl (Error message) ->
  generate_qr request text compress color bg_color logo w =
    (inl (HTTPException 400 message),
     logged (client_host request) "generate_error" message
       (record_call (CallMake (second_try data)) (record_call (CallMake (first_try data)) w))).
Proof.
  intros Hempty Hpayload Hfirst Hsecond.
  unfold generate_qr, payload, second_try, first_try in *. rewrite Hempty.
  destruct compress; run_m.
  - destruct (utf8_decode _) as [e|b64]; [discriminate|]. injection Hpayload as <-.
    destruct (fst (make (add_data _ _))) as [[]|]; try discriminate. run_m.
    rewrite Hsecond. now run_m.
  - injection Hpayload as <-.
    destruct (fst (make (add_data _ _))) as [[]|]; try discriminate. run_m.
    rewrite Hsecond. now run_m.
Qed.

Lemma generate_qr_handled (request : Request) (text : string) (compress : bool)
    (color bg_color : string) (logo : option bytes) (w : World) :
  handled (generate_qr request text compress color bg_color logo w).
Proof.
  unfold handled, generate_qr.
  repeat (run_m; split_match); run_m; subst; simpl in *;
    try reflexivity; try discriminate; name_caught.
Qed.

Lemma decode_qr_handled (request : Request) (image : bytes) (w : World) :
  handled (decode_qr request image w).
Proof.
  unfold handled, decode_qr.
  repeat (run_m; split_match); run_m; subst; simpl in *;
    try reflexivity; try discriminate; name_caught.
Qed.

Lemma ocr_image_handled (request : Request) (image : bytes) (w : World) :
  handled (ocr_image request image w).
Proof.
  unfold handled, ocr_image.
  repeat (run_m; split_match); run_m; subst; simpl in *;
    try reflexivity; try discriminate; name_caught.
Qed.

Lemma logged_spec (ip action details : string) (w : World) :
  logged ip action details w = set_store w (written (store w) (clock w) ip action details).
Proof.
  unfold logged, written, log_action, try_except, insert_log, commit, mbind, M_bind,
    set_store.
  destruct w as [t [r n f c] ws cs]; simpl. destruct f, c; reflexivity.
Qed.

Lemma get_stats_spec (w : World) : get_stats w = (inr (snapshot (store w)), w).
Proof.
  unfold get_stats, snapshot, select_count_action, select_count_distinct_ip.
  destruct w as [t [r n f c] ws cs]. destruct f; reflexivity.
Qed.

Ltac audit_paths :=
  repeat (run_m; split_match); run_m; subst; rewrite ?logged_spec; simpl;
  try discriminate;
  (split; [reflexivity|]; split; [reflexivity|];
   first [ split; [reflexivity|]; eexists; reflexivity
         | eexists; split; reflexivity
         | eexists (HTTPException _ _); split; reflexivity
         | eexists (RateLimitExceeded _); split; reflexivity
         | eexists (DataOverflowError _); split; reflexivity
         | eexists (Error _); split; reflexivity ]).

Lemma generate_qr_audited (request : Request) (text : string) (compress : bool)
    (color bg_color : string) (logo : option bytes) (w : World) :
  audited (client_host request) "generate" w
    (generate_qr request text compress color bg_color logo w).
Proof. unfold audited, generate_qr. audit_paths. Qed.

Lemma decode_qr_audited (request : Request) (image : bytes) (w : World) :
  audited (client_host request) "decode" w (decode_qr request image w).
Proof. unfold audited, decode_qr. audit_paths. Qed.

Lemma ocr_image_audited (request : Request) (image : bytes) (w : World) :
  audited (client_host request) "ocr" w (ocr_image request image w).
Proof. unfold audited, ocr_image. audit_paths. Qed.

(** *** The limiter *)

Lemma hit_returns (key : string * string) (w : World) :
  exists allowed, fst (hit key w) = inr allowed.
Proof. unfold hit. repeat split_match; eexists; reflexivity. Qed.

Lemma hit_rejects (key : string * string) (w : World) :
  fst (hit key w) = inr false -> snd (hit key w) = w.
Proof. unfold hit. repeat split_match; simpl; congruence. Qed.

Lemma hit_keeps (key : string * string) (w : World) :
  store (snd (hit key w)) = store w /\ calls (snd (hit key w)) = calls w /\
  clock (snd (hit key w)) = clock w.
Proof. unfold hit. repeat split_match; auto. Qed.

Lemma hit_other_key (key key' : string * string) (w : World) :
  key <> key' -> windows (snd (hit key w)) !! key' = windows w !! key'.
Proof.
  intros Hne. unfold hit. repeat split_match; simpl; rewrite ?lookup_insert_ne; auto.
Qed.

(** *** Routing *)

Lemma dispatch_operation (request : Request) (op : Operation) :
  operation_of request = Some op ->
  path request = op_path op /\
  dispatch request = limit (op_path op) request (endpoint request).
Proof.
  unfold operation_of, dispatch, endpoint.
  destruct (method request); try discriminate.
  destruct (params request) as [|text compress color bg logo|image]; try discriminate.
  - destruct (String.eqb_spec (path request) "/generate") as [->|]; [|discriminate].
    intros [= <-]. split; reflexivity.
  - destruct (String.eqb_spec (path request) "/decode") as [->|].
    + intros [= <-]. split; reflexivity.
    + destruct (String.eqb_spec (path request) "/ocr") as [->|]; [|discriminate].
      intros [= <-]. split; reflexivity.
Qed.

Lemma endpoint_audited (request : Request) (op : Operation) (w : World) :
  operation_of request = Some op ->
  audited (client_host request) (op_action op) w (endpoint request w) /\
  handled (endpoint request w).
Proof.
  unfold operation_of, endpoint.
  destruct (method request); try discriminate.
  destruct (params request) as [|text compress color bg logo|image]; try discriminate.
  - destruct (String.eqb (path request) "/generate"); [|discriminate].
    intros [= <-]. split; [apply generate_qr_audited | apply generate_qr_handled].
  - destruct (String.eqb (path request) "/decode").
    + intros [= <-]. split; [apply decode_qr_audited | apply decode_qr_handled].
    + destruct (String.eqb (path request) "/ocr"); [|discriminate].
      intros [= <-]. split; [apply ocr_image_audited | apply ocr_image_handled].
Qed.

Lemma path_in_operation (op : Operation) : path_in (op_path op) LIMITED_PATHS = true.
Proof. destruct op; reflexivity. Qed.

(** A request to a limited endpoint: the limiter first, then the endpoint
    and the exception handlers, and no access row. *)
Lemma serve_operation (request : Request) (op : Operation) (w : World) :
  operation_of request = Some op ->
  let w0 := set_clock w (arrival request) in
  let key := (client_host request, op_path op) in
  serve w request =
    match fst (hit key w0) with
    | inr true =>
        (reply (fst (endpoint request (snd (hit key w0)))),
         snd (endpoint request (snd (hit key w0))))
    | _ => (TOO_MANY_REQUESTS, w0)
    end.
Proof.
  intros Hop. cbv zeta.
  destruct (dispatch_operation request op Hop) as [Hpath Hdispatch].
  unfold serve, log_requests, call_next. rewrite Hdispatch, Hpath.
  pose proof (path_in_operation op) as Hin. unfold LIMITED_PATHS in Hin. rewrite Hin.
  unfold limit.
  destruct (hit_returns (client_host request, op_path op) (set_clock w (arrival request)))
    as [allowed Hhit].
  pose proof (hit_rejects (client_host request, op_path op) (set_clock w (arrival request)))
    as Hsame.
  run_m.
  destruct (hit _ _) as [r w1]. simpl in Hhit, Hsame. subst r. cbn [fst snd].
  destruct allowed.
  - destruct (endpoint request w1) as [[[]|response] w2]; reflexivity.
  - rewrite (Hsame eq_refl). reflexivity.
Qed.

Lemma path_not_limited (p : string) :
  path_in p LIMITED_PATHS = false ->
  String.eqb p "/generate" = false /\ String.eqb p "/decode" = false /\
  String.eqb p "/ocr" = false.
Proof.
  unfold path_in, LIMITED_PATHS. simpl. intros Hin.
  apply orb_false_elim in Hin as [H1 Hin]. apply orb_false_elim in Hin as [H2 Hin].
  apply orb_false_elim in Hin as [H3 _]. auto.
Qed.

(** A request to any other path is answered, and then logged as an access. *)
Lemma serve_other (request : Request) (w : World) :
  path_in (path request) LIMITED_PATHS = false ->
  exists response,
    serve w request =
      (response,
       logged (client_host request) "access" ("访问 " ++ path request)
         (set_clock w (arrival request))).
Proof.
  intros Hin. destruct (path_not_limited _ Hin) as (H1 & H2 & H3).
  unfold serve, log_requests, call_next, dispatch, home, stats, export_logs, health,
    select_all.
  unfold LIMITED_PATHS in Hin. rewrite Hin, H1, H2, H3.
  repeat (run_m; rewrite ?get_stats_spec; split_match);
    run_m; rewrite ?get_stats_spec; run_m; eexists; reflexivity.
Qed.

(** A request to a limited path that is not handed to its endpoint (wrong
    method, parameters that do not validate) is refused and changes
    nothing. *)
Lemma serve_unrouted (request : Request) (w : World) :
  path_in (path request) LIMITED_PATHS = true ->
  operation_of request = None ->
  exists response,
    serve w request = (response, set_clock w (arrival request)) /\
    (status response = 405 \/ status response = 422).
Proof.
  intros Hin Hop.
  unfold serve, log_requests, call_next, dispatch.
  unfold LIMITED_PATHS in Hin. rewrite Hin. revert Hin Hop.
  unfold operation_of, path_in. simpl.
  destruct (String.eqb_spec (path request) "/generate") as [->|];
    [|destruct (String.eqb_spec (path request) "/decode") as [->|];
      [|destruct (String.eqb_spec (path request) "/ocr") as [->|]; [|discriminate]]];
    simpl; intros _;
    destruct (method request), (params request); try discriminate; intros _;
    run_m; eexists; split; try reflexivity; simpl; auto.
Qed.

(** What serving a request to a limited endpoint comes to. *)
Lemma serve_operation_summary (request : Request) (op : Operation) (w : World) :
  operation_of request = Some op ->
  let w0 := set_clock w (arrival request) in
  let key := (client_host request, op_path op) in
  let served := serve w request in
  exists allowed,
    fst (hit key w0) = inr allowed /\
    windows (snd served) = windows (snd (hit key w0)) /\
    if allowed : bool then
      calls (snd (hit key w0)) = calls w /\
      ((status (fst served) = 200 /\
        exists details,
          store (snd served) =
            written (store w) (arrival request) (client_host request) (op_action op)
              details) \/
       (exists caught,
          fst served = JSONResponse 400 [("detail", JStr (str caught))] /\
          store (snd served) =
            written (store w) (arrival request) (client_host request)
              (op_action op ++ "_error") (str caught)))
    else served = (TOO_MANY_REQUESTS, w0).
Proof.
  intros Hop. cbv zeta. rewrite (serve_operation request op w Hop).
  destruct (hit_returns (client_host request, op_path op) (set_clock w (arrival request)))
    as [allowed Hhit].
  exists allowed. split; [exact Hhit|]. rewrite Hhit.
  destruct (hit_keeps (client_host request, op_path op) (set_clock w (arrival request)))
    as (Hstore & Hcalls & Hclock).
  destruct allowed; [|split; [|reflexivity]].
  - destruct (endpoint_audited request op
                (snd (hit (client_host request, op_path op)
                        (set_clock w (arrival request)))) Hop)
      as [(Hwin & _ & Hrow) _].
    revert Hwin Hrow. rewrite Hstore, Hclock.
    destruct (endpoint request _) as [[e|response] w2]; cbn [fst snd].
    + intros Hwin (caught & -> & Hrow). split; [exact Hwin|]. split; [exact Hcalls|].
      right. exists caught. split; [reflexivity | exact Hrow].
    + intros Hwin (Hstatus & details & Hrow). split; [exact Hwin|]. split; [exact Hcalls|].
      left. split; [exact Hstatus|]. exists details. exact Hrow.
  - now rewrite (hit_rejects _ _ Hhit).
Qed.

(** *** Counting within a window *)

Lemma open_after_windows (j : nat) (t0 : Z) (key : string * string) (w w' : World) :
  windows w' !! key = windows w !! key -> open_after j t0 key w -> open_after j t0 key w'.
Proof.
  intros Heq. destruct j; unfold open_after, no_open_window; now rewrite Heq.
Qed.

Lemma hit_step (j : nat) (t0 : Z) (key : string * string) (w : World) :
  open_after j t0 key w ->
  t0 <= clock w < t0 + WINDOW ->
  fst (hit key w) = inr (negb (5 <=? j)%nat) /\ open_after (S j) t0 key (snd (hit key w)).
Proof.
  unfold WINDOW. intros Hopen Hnow. unfold hit, QUOTA, WINDOW. destruct j as [|j].
  - unfold open_after, no_open_window, WINDOW in Hopen.
    assert (Hfresh : open_after 1 t0 key
              (set_windows w (<[key := mkWindow 1 (clock w)]> (windows w)))).
    { exists (clock w). simpl. rewrite lookup_insert_eq. split; [reflexivity | lia]. }
    destruct (windows w !! key) as [win|]; [|split; [reflexivity | exact Hfresh]].
    destruct (Z.ltb_spec (clock w) (window_start win + 60)); [lia|].
    split; [reflexivity | exact Hfresh].
  - destruct Hopen as (s & Hwin & Hs). rewrite Hwin. cbn [window_start count].
    destruct (Z.ltb_spec (clock w) (s + 60)); [|lia].
    destruct (Z.ltb_spec (Z.of_nat (Nat.min (S j) 5)) 5) as [Hlt|Hge];
      destruct (Nat.leb_spec 5 (S j)) as [Hle|Hgt]; try lia; cbn [negb fst snd].
    + split; [reflexivity|]. exists s. simpl. rewrite lookup_insert_eq.
      split; [|exact Hs]. do 2 f_equal. lia.
    + split; [reflexivity|]. exists s. rewrite Hwin. split; [|exact Hs].
      do 2 f_equal. lia.
Qed.

Lemma op_path_inj (op op' : Operation) : op_path op = op_path op' -> op = op'.
Proof. destruct op, op'; simpl; congruence. Qed.

Lemma serve_window_step (host : string) (op : Operation) (j : nat) (t0 : Z)
    (request : Request) (w : World) :
  targets host op request = true ->
  open_after j t0 (host, op_path op) w ->
  t0 <= arrival request < t0 + WINDOW ->
  (status (fst (serve w request)) =? 429) = (5 <=? j)%nat /\
  open_after (S j) t0 (host, op_path op) (snd (serve w request)).
Proof.
  unfold targets. intros Htarget Hopen Hnow.
  apply andb_true_iff in Htarget as [Hhost Hop].
  apply String.eqb_eq in Hhost. apply bool_decide_eq_true in Hop. subst host.
  destruct (serve_operation_summary request op w Hop) as (allowed & Hhit & Hwin & Hserved).
  destruct (hit_step j t0 (client_host request, op_path op) (set_clock w (arrival request)))
    as [Hverdict Hnext]; [exact Hopen | exact Hnow |].
  split; [|apply (open_after_windows _ _ _ _ _ (f_equal (fun m => m !! _) Hwin) Hnext)].
  clear Hnext. revert Hverdict. generalize (5 <=? j)%nat. intros b Hverdict.
  rewrite Hhit in Hverdict. injection Hverdict as ->.
  destruct b; simpl in Hserved.
  - now rewrite Hserved.
  - destruct Hserved as (_ & [[-> _] | (caught & -> & _)]); reflexivity.
Qed.


Lemma serve_window_other (host : string) (op : Operation) (request : Request) (w : World) :
  targets host op request = false ->
  windows (snd (serve w request)) !! (host, op_path op) = windows w !! (host, op_path op).
Proof.
  unfold targets. intros Htarget.
  destruct (operation_of request) as [op'|] eqn:Hop.
  - destruct (serve_operation_summary request op' w Hop) as (allowed & _ & -> & _).
    rewrite hit_other_key; [reflexivity|].
    intros [= Hhost Hpath]. apply op_path_inj in Hpath. subst.
    rewrite String.eqb_refl, bool_decide_eq_true_2 in Htarget; [discriminate|reflexivity].
  - destruct (path_in (path request) LIMITED_PATHS) eqn:Hin.
    + destruct (serve_unrouted request w Hin Hop) as (response & -> & _). reflexivity.
    + destruct (serve_other request w Hin) as (response & ->). cbn [snd].
      now rewrite logged_windows.
Qed.

Lemma run_cons (w : World) (request : Request) (requests : list Request) :
  run w (request :: requests) =
    (fst (serve w request) :: fst (run (snd (serve w request)) requests),
     snd (run (snd (serve w request)) requests)).
Proof.
  simpl. destruct (serve w request) as [response w1]. cbn [fst snd].
  destruct (run w1 requests) as [responses w2]. reflexivity.
Qed.

Lemma run_verdicts (host : string) (op : Operation) (t0 : Z) (requests : list Request) :
  forall (j : nat) (w : World),
    open_after j t0 (host, op_path op) w ->
    Forall (fun r => targets host op r = true -> t0 <= arrival r < t0 + WINDOW) requests ->
    verdicts host op requests (fst (run w requests)) =
      map (fun i => (5 <=? i)%nat)
          (seq j (length (List.filter (targets host op) requests))).
Proof.
  induction requests as [|r rs IH]; intros j w Hopen Htimes; [reflexivity|].
  inversion Htimes as [|? ? Hr Hrs]; subst.
  rewrite run_cons. unfold verdicts. cbn [fst combine List.filter].
  destruct (targets host op r) eqn:Htarget.
  - destruct (serve_window_step host op j t0 r w Htarget Hopen (Hr eq_refl))
      as [Hverdict Hnext].
    cbn [map length seq snd fst]. rewrite Hverdict. f_equal.
    apply (IH (S j) _ Hnext Hrs).
  - apply (IH j); [|exact Hrs].
    apply (open_after_windows j t0 _ w); [|exact Hopen].
    apply serve_window_other. exact Htarget.
Qed.

Lemma written_rows (s : Store) (t : Z) (ip action details : string) :
  failing s = false ->
  rows (written s t ip action details) =
    (rows s ++ [ {| id := last_id s + 1; ip := ip; timestamp := t; action := action;
                    details := details |} ])%list.
Proof. intros Hok. unfold written. now rewrite Hok. Qed.

Lemma logged_store (ip action details : string) (w : World) :
  store (logged ip action details w) = written (store w) (clock w) ip action details.
Proof. now rewrite logged_spec. Qed.

Lemma decode_qr_unreadable (request : Request) (image : bytes) (w : World) (e : exn) :
  Image_open image = inl e ->
  fst (decode_qr request image w) = inl (HTTPException 400 (str e)).
Proof. intros Hopen. unfold decode_qr. run_m. rewrite Hopen. now run_m. Qed.

Lemma ocr_image_unreadable (request : Request) (image : bytes) (w : World) (e : exn) :
  Image_open image = inl e ->
  fst (ocr_image request image w) = inl (HTTPException 400 (str e)).
Proof. intros Hopen. unfold ocr_image. run_m. rewrite Hopen. now run_m. Qed.

(** *** The table along a run *)

Lemma serve_store_step (request : Request) (w : World) :
  store (snd (serve w request)) = store w \/
  exists action details,
    store (snd (serve w request)) =
      written (store w) (arrival request) (client_host request) action details.
Proof.
  destruct (operation_of request) as [op|] eqn:Hop.
  - destruct (serve_operation_summary request op w Hop) as (allowed & _ & _ & Hserved).
    destruct allowed.
    + destruct Hserved as (_ & [[_ (details & Hrow)] | (caught & _ & Hrow)]);
        right; eauto.
    + left. now rewrite Hserved.
  - destruct (path_in (path request) LIMITED_PATHS) eqn:Hin.
    + destruct (serve_unrouted request w Hin Hop) as (response & -> & _). now left.
    + destruct (serve_other request w Hin) as (response & ->). right.
      cbn [snd]. rewrite logged_store. eauto.
Qed.

Lemma sorted_snoc (l : list Z) (x : Z) :
  StronglySorted Z.lt l -> Forall (fun y => y < x) l -> StronglySorted Z.lt (l ++ [x]).
Proof.
  induction l as [|a l IH]; intros Hsorted Hbelow; simpl.
  - repeat constructor.
  - inversion Hsorted as [|? ? Hl Ha]; subst. inversion Hbelow as [|? ? Hax Hlx]; subst.
    constructor; [now apply IH|].
    apply Forall_app. split; [exact Ha | now constructor].
Qed.

Lemma written_ids_ascend (s : Store) (t : Z) (ip action details : string) :
  ids_ascend s -> ids_ascend (written s t ip action details).
Proof.
  intros [Hsorted Hbound]. unfold written. destruct (failing s); [now split|].
  split; simpl.
  - rewrite map_app. apply sorted_snoc; [exact Hsorted|].
    apply List.Forall_map. eapply Forall_impl; [exact Hbound|].
    simpl. intros r Hr. lia.
  - apply Forall_app. split.
    + eapply Forall_impl; [exact Hbound|]. simpl. intros r Hr. lia.
    + constructor; [simpl; lia | constructor].
Qed.

Lemma reachable_ids_ascend (w : World) : reachable w -> ids_ascend (store w).
Proof.
  induction 1 as [|w request _ IH|w b _ IH|w b _ IH].
  - split; constructor.
  - destruct (serve_store_step request w) as [-> | (action & details & ->)];
      [exact IH | now apply written_ids_ascend].
  - exact IH.
  - exact IH.
Qed.

Lemma reachable_run (requests : list Request) :
  forall w, reachable w -> reachable (snd (run w requests)).
Proof.
  induction requests as [|r rs IH]; intros w Hw; [exact Hw|].
  rewrite run_cons. cbn [snd]. apply IH. now constructor.
Qed.

(** *** Counting rows *)

Lemma count_action_fmap (a : string) (l : list AuditRecord) :
  length (filter (fun r => action r = a) l) =
  length (filter (fun x => x = a) (action <$> l)).
Proof.
  induction l as [|r l IH]; [reflexivity|].
  rewrite fmap_cons, !filter_cons. destruct (decide (action r = a)); simpl; now rewrite IH.
Qed.

Lemma count_operations (op : Operation) (requests : list Request) :
  length (filter (fun x => x = op_action op)
            (omap (fun r => op_action <$> operation_of r) requests)) =
  handed_to op requests.
Proof.
  unfold handed_to. induction requests as [|r rs IH]; [reflexivity|].
  rewrite filter_cons. simpl.
  destruct (operation_of r) as [op'|]; simpl.
  - rewrite filter_cons.
    destruct (decide (op_action op' = op_action op)) as [Heq|Hne];
      destruct (decide (Some op' = Some op)) as [Heq'|Hne']; simpl.
    + f_equal. exact IH.
    + destruct op', op; simpl in Heq; try discriminate; now contradiction Hne'.
    + injection Heq' as ->. now contradiction Hne.
    + exact IH.
  - destruct (decide (None = Some op)); [discriminate | exact IH].
Qed.

Lemma serve_success_row (request : Request) (op : Operation) (w : World) :
  operation_of request = Some op ->
  failing (store w) = false ->
  status (fst (serve w request)) = 200 ->
  failing (store (snd (serve w request))) = false /\
  ip <$> rows (store (snd (serve w request))) =
    ((ip <$> rows (store w)) ++ [client_host request])%list /\
  action <$> rows (store (snd (serve w request))) =
    ((action <$> rows (store w)) ++ [op_action op])%list.
Proof.
  intros Hop Hok H200.
  destruct (serve_operation_summary request op w Hop) as (allowed & _ & _ & Hserved).
  destruct allowed.
  - destruct Hserved as (_ & [[_ (details & Hrow)] | (caught & Hresp & _)]).
    + rewrite Hrow. unfold written. rewrite Hok. simpl.
      rewrite !fmap_app. auto.
    + rewrite Hresp in H200. discriminate.
  - rewrite Hserved in H200. discriminate.
Qed.

Lemma run_successes (requests : list Request) :
  forall w,
    failing (store w) = false ->
    Forall (fun r => is_Some (operation_of r)) requests ->
    Forall (fun response => status response = 200) (fst (run w requests)) ->
    failing (store (snd (run w requests))) = false /\
    ip <$> rows (store (snd (run w requests))) =
      ((ip <$> rows (store w)) ++ (client_host <$> requests))%list /\
    action <$> rows (store (snd (run w requests))) =
      ((action <$> rows (store w)) ++
       omap (fun r => op_action <$> operation_of r) requests)%list.
Proof.
  induction requests as [|r rs IH]; intros w Hok Hops Hstatus.
  - simpl. rewrite !app_nil_r. auto.
  - rewrite run_cons in *. cbn [fst snd] in *.
    inversion Hops as [|? ? [op Hop] Hrest]; subst.
    inversion Hstatus as [|? ? H200 Hothers]; subst.
    destruct (serve_success_row r op w Hop Hok H200) as (Hok' & Hips & Hactions).
    destruct (IH _ Hok' Hrest Hothers) as (Hfinal & Hips' & Hactions').
    split; [exact Hfinal|]. rewrite Hips', Hips, Hactions', Hactions.
    simpl. rewrite Hop. simpl. rewrite <- !app_assoc. auto.
Qed.

Lemma remove_dups_snoc_fresh {A} `{EqDecision A} (l : list A) (x : A) :
  x ∉ l -> length (remove_dups (l ++ [x])) = S (length (remove_dups l)).
Proof.
  induction l as [|a l IH]; intros Hfresh; [reflexivity|].
  apply not_elem_of_cons in Hfresh as [Hne Hfresh]. simpl.
  destruct (decide_rel elem_of a (l ++ [x])%list) as [Hin|Hout];
    destruct (decide_rel elem_of a l) as [Hin'|Hout']; simpl; rewrite ?IH by exact Hfresh;
    try reflexivity.
  - apply elem_of_app in Hin as [Hin|Hin]; [now contradiction Hout'|].
    apply list_elem_of_singleton in Hin. now contradiction Hne.
  - contradiction Hout. apply elem_of_app. now left.
Qed.

Lemma ocr_image_recognized (request : Request) (image : bytes) (w : World) (text : string) :
  recognized image = inr text ->
  fst (ocr_image request image w) =
    if is_empty text
    then inl (HTTPException 400 (str (HTTPException 400 NO_TEXT_DETAIL)))
    else inr (JSONResponse 200 [("text", JStr text)]).
Proof.
  unfold recognized, ocr_image. intros Hfound. run_m.
  destruct (Image_open image) as [e|i1]; [discriminate|].
  destruct (convert i1 "RGB") as [e|i2]; [discriminate|].
  destruct (Contrast_enhance i2 2) as [e|i3]; [discriminate|].
  destruct (Sharpness_enhance i3 2) as [e|i4]; [discriminate|].
  destruct (easyocr_Reader _ _) as [e|reader]; [discriminate|].
  destruct (np_array i4) as [e|arr]; [discriminate|].
  destruct (readtext reader arr) as [e|result]; [discriminate|].
  injection Hfound as ->. destruct (is_empty text); now run_m.
Qed.

Lemma generate_qr_bad_logo (request : Request) (text : string) (compress : bool)
    (color bg_color : string) (file : bytes) (data : string) (w : World) :
  is_empty text = false ->
  payload text compress = inr data ->
  fst (make (first_try data)) = inr tt ->
  (exists img, make_image (after_make (first_try data)) color bg_color = inr img) ->
  (exists e, Image_open file = inl e) ->
  fst (generate_qr request text compress color bg_color (Some file) w) =
    inl (HTTPException 400 (str (HTTPException 400 LOGO_DETAIL))).
Proof.
  intros Hempty Hpayload Hfirst [img Himg] [e Hopen].
  unfold generate_qr, payload, first_try in *. rewrite Hempty.
  destruct compress; run_m.
  - destruct (utf8_decode _) as [e'|b64]; [discriminate|]. injection Hpayload as <-.
    rewrite Hfirst. run_m. rewrite Himg, Hopen. now run_m.
  - injection Hpayload as <-. rewrite Hfirst. run_m. rewrite Himg, Hopen. now run_m.
Qed.

End Facts.

(** ** The stub platform obeys the laws *)

Lemma stub_hex_char (c : ascii) :
  Stub.hex_value (Stub.hex_digit (nat_of_ascii c / 16)) = Some (nat_of_ascii c / 16)%nat /\
  Stub.hex_value (Stub.hex_digit (nat_of_ascii c mod 16)) = Some (nat_of_ascii c mod 16)%nat /\
  ascii_of_nat (16 * (nat_of_ascii c / 16) + nat_of_ascii c mod 16) = c.
Proof. destruct c as [[] [] [] [] [] [] [] []]; vm_compute; auto. Qed.

Lemma stub_decode16_encode16 (b : string) : Stub.decode16 (Stub.encode16 b) = inr b.
Proof.
  induction b as [|c b IH]; [reflexivity|].
  cbn [Stub.encode16 Stub.decode16].
  destruct (stub_hex_char c) as (-> & -> & Hc). now rewrite IH, Hc.
Qed.

Lemma stub_utf8_law (models : bool) : @utf8_law (Stub.platform models).
Proof. intros s. reflexivity. Qed.

Lemma stub_zlib_law (models : bool) : @zlib_law (Stub.platform models).
Proof. intros b. reflexivity. Qed.

Lemma stub_base64_law (models : bool) : @base64_law (Stub.platform models).
Proof.
  intros b. exists (Stub.encode16 b). split; [reflexivity|].
  apply stub_decode16_encode16.
Qed.

Lemma stub_qr_round_trip_law (models : bool) : @qr_round_trip_law (Stub.platform models).
Proof.
  intros qr _ _ _. exists (Stub.Symbol (String.concat "" (data_list qr))).
  exists (String "Q"%char (String.concat "" (data_list qr))).
  repeat split; reflexivity.
Qed.

Lemma stub_qrcode_version_law (models : bool) : @qrcode_version_law (Stub.platform models).
Proof.
  intros qr. simpl. unfold Stub.stub_make, Stub.best_fit. split.
  - destruct (version qr) as [v|]; [unfold Stub.check_version; destruct (_ && _)|];
      try (destruct (Nat.leb _ _)); simpl; intros Hover;
      try discriminate Hover; reflexivity.
  - intros ->. simpl. eexists. reflexivity.
Qed.

(** ** Round trips through the codec adapter *)

Lemma endswith_not_empty (data suffix : string) :
  is_empty suffix = false -> endswith data suffix = true -> is_empty data = false.
Proof.
  destruct data; [|reflexivity]. destruct suffix; [discriminate|].
  intros _. unfold endswith. simpl. discriminate.
Qed.

(** C1 (amended): for every non-empty text that does not end with the
    marker "|compressed" and that fits the symbol at the first
    error-correction level or, failing that, at the second, [generate_qr]
    without compression, with the default colours and without a logo,
    returns a PNG image, and [decode_qr] on that image returns exactly the
    text.  (The codec libraries are assumed to round-trip.) *)
Theorem plain_round_trip `{Platform} (request request' : Request) (text : string)
    (w w_ : World) :
  qr_round_trip_law ->
  is_empty text = false ->
  endswith text "|compressed" = false ->
  fits text ->
  exists png w',
    generate_qr request text false DEFAULT_COLOR DEFAULT_BG_COLOR None w =
      (inr (StreamingResponse png "image/png"), w') /\
    fst (decode_qr request' png w_) = inr (JSONResponse 200 [("decoded", JStr text)]).
Proof.
  intros Hlaw Hempty Hmarker Hfits.
  destruct (generate_qr_fits request text false text w Hlaw Hempty eq_refl Hfits)
    as (png & Hgen & Hscan).
  exists png. eexists. split; [exact Hgen|].
  rewrite (decode_qr_scanned request' png w_ text Hscan), Hempty, Hmarker.
  unfold decode_reply. now run_m.
Qed.

Lemma plain_round_trip_witness :
  exists png w',
    @generate_qr (Stub.platform true) (sample_request "/generate" NoParams) "hello" false
      DEFAULT_COLOR DEFAULT_BG_COLOR None initial_world =
      (inr (StreamingResponse png "image/png"), w') /\
    fst (@decode_qr (Stub.platform true) (sample_request "/decode" NoParams) png initial_world)
      = inr (JSONResponse 200 [("decoded", JStr "hello")]).
Proof.
  apply (@plain_round_trip (Stub.platform true)).
  - apply stub_qr_round_trip_law.
  - reflexivity.
  - reflexivity.
  - left. reflexivity.
Defined.

(** C1 as stated fails on a text that ends with the marker: the text
    "|compressed" is non-empty and fits the symbol, it is encoded as it is,
    and decoding the image takes the text for a compressed payload and
    answers 400 instead of returning it. *)
Lemma plain_round_trip_counterexample :
  let P := Stub.platform true in
  let text := "|compressed" in
  qr_round_trip_law /\ is_empty text = false /\ fits text /\
  fst (generate_qr (sample_request "/generate" NoParams) text false
         DEFAULT_COLOR DEFAULT_BG_COLOR None initial_world)
    = inr (StreamingResponse "Q|compressed" "image/png") /\
  fst (decode_qr (sample_request "/decode" NoParams) "Q|compressed" initial_world)
    = inl (HTTPException 400 "400: 解压失败，无效的压缩数据") /\
  fst (decode_qr (sample_request "/decode" NoParams) "Q|compressed" initial_world)
    <> inr (JSONResponse 200 [("decoded", JStr text)]).
Proof.
  cbv zeta. split; [apply stub_qr_round_trip_law|].
  split; [reflexivity|]. split; [left; reflexivity|].
  split; [vm_compute; reflexivity|]. split; [vm_compute; reflexivity|].
  vm_compute. discriminate.
Qed.


(** C2: for every non-empty text, [generate_qr] with compression hands the
    encoder base64(zlib(utf8(text))) followed by "|compressed" (every call
    to the encoder is on an object holding exactly that data); decoding
    strips the suffix, base64-decodes, decompresses and decodes back to the
    text; and when the payload fits the symbol, [decode_qr] on the image
    [generate_qr] returned gives exactly the text.  (The codec libraries
    are assumed to round-trip; the image is black on white, without logo.) *)
Theorem compressed_round_trip `{Platform} (request request' : Request)
    (text color bg_color : string) (logo : option bytes) (w w_ : World) :
  utf8_law -> zlib_law -> base64_law -> qr_round_trip_law ->
  is_empty text = false ->
  exists b64,
    utf8_decode (b64encode (zlib_compress (utf8_encode text))) = inr b64 /\
    let data := b64 ++ "|compressed" in
    calls (snd (generate_qr request text true color bg_color logo w))
      = (calls w ++ encoder_calls data)%list /\
    Forall (fun c => exists qr, c = CallMake qr /\ data_list qr = [data]) (encoder_calls data) /\
    endswith data "|compressed" = true /\
    drop_last 11 data = b64 /\
    b64decode b64 = inr (zlib_compress (utf8_encode text)) /\
    zlib_decompress (zlib_compress (utf8_encode text)) = inr (utf8_encode text) /\
    utf8_decode (utf8_encode text) = inr text /\
    (forall image, scan image = inr data ->
       fst (decode_qr request' image w_) = inr (JSONResponse 200 [("decoded", JStr text)])) /\
    (fits data ->
       exists png w',
         generate_qr request text true DEFAULT_COLOR DEFAULT_BG_COLOR None w =
           (inr (StreamingResponse png "image/png"), w') /\
         fst (decode_qr request' png w_) = inr (JSONResponse 200 [("decoded", JStr text)])).
Proof.
  intros Hutf8 Hzlib Hb64 Hqr Hempty.
  destruct (Hb64 (zlib_compress (utf8_encode text))) as (b64 & Htext & Hdecode).
  exists b64. split; [exact Htext|]. cbv zeta.
  assert (Hpayload : payload text true = inr (b64 ++ "|compressed")).
  { unfold payload, and_then. now rewrite Htext. }
  assert (Hends : endswith (b64 ++ "|compressed") "|compressed" = true)
    by apply endswith_app.
  assert (Hdrop : drop_last 11 (b64 ++ "|compressed") = b64)
    by apply (drop_last_app b64 "|compressed").
  assert (Hback : forall image, scan image = inr (b64 ++ "|compressed") ->
    fst (decode_qr request' image w_) = inr (JSONResponse 200 [("decoded", JStr text)])).
  { intros image Hscan. rewrite (decode_qr_scanned request' image w_ _ Hscan).
    rewrite (is_empty_app_r b64 "|compressed" eq_refl), Hends.
    unfold unpack, and_then. rewrite Hdrop, Hdecode, Hzlib, Hutf8.
    unfold decode_reply. now run_m. }
  split.
  { rewrite generate_qr_calls, Hempty, Hpayload. reflexivity. }
  split.
  { unfold encoder_calls. destruct (overflows _); repeat constructor; eexists; split;
      reflexivity. }
  repeat (split; [assumption || apply Hzlib || apply Hutf8|]).
  intros Hfits.
  destruct (generate_qr_fits request text true _ w Hqr Hempty Hpayload Hfits)
    as (png & Hgen & Hscan).
  exists png. eexists. split; [exact Hgen|]. now apply Hback.
Qed.

Lemma compressed_round_trip_witness :
  let P := Stub.platform true in
  exists b64,
    utf8_decode (b64encode (zlib_compress (utf8_encode "hello"))) = inr b64 /\
    let data := b64 ++ "|compressed" in
    calls (snd (generate_qr (sample_request "/generate" NoParams) "hello" true
                  DEFAULT_COLOR DEFAULT_BG_COLOR None initial_world))
      = (calls initial_world ++ encoder_calls data)%list /\
    Forall (fun c => exists qr, c = CallMake qr /\ data_list qr = [data]) (encoder_calls data) /\
    endswith data "|compressed" = true /\
    drop_last 11 data = b64 /\
    b64decode b64 = inr (zlib_compress (utf8_encode "hello")) /\
    zlib_decompress (zlib_compress (utf8_encode "hello")) = inr (utf8_encode "hello") /\
    utf8_decode (utf8_encode "hello") = inr "hello" /\
    (forall image, scan image = inr data ->
       fst (decode_qr (sample_request "/decode" NoParams) image initial_world)
         = inr (JSONResponse 200 [("decoded", JStr "hello")])) /\
    (fits data ->
       exists png w',
         generate_qr (sample_request "/generate" NoParams) "hello" true
           DEFAULT_COLOR DEFAULT_BG_COLOR None initial_world =
           (inr (StreamingResponse png "image/png"), w') /\
         fst (decode_qr (sample_request "/decode" NoParams) png initial_world)
           = inr (JSONResponse 200 [("decoded", JStr "hello")])).
Proof.
  apply (@compressed_round_trip (Stub.platform true)).
  - apply stub_utf8_law.
  - apply stub_zlib_law.
  - apply stub_base64_law.
  - apply stub_qr_round_trip_law.
  - reflexivity.
Defined.

Example compressed_round_trip_run :
  let P := Stub.platform true in
  let image := "Q7868656c6c6f|compressed" in
  fst (generate_qr (sample_request "/generate" NoParams) "hello" true
         DEFAULT_COLOR DEFAULT_BG_COLOR None initial_world)
    = inr (StreamingResponse image "image/png") /\
  fst (decode_qr (sample_request "/decode" NoParams) image initial_world)
    = inr (JSONResponse 200 [("decoded", JStr "hello")]).
Proof. split; vm_compute; reflexivity. Qed.

(** ** The compression marker on the decode side *)

(** C9 (amended): whenever the payload found in an image ends with the
    eleven characters "|compressed", [decode_qr] strips them and attempts
    base64-decoding, decompression and UTF-8 decoding, whether or not the
    payload came from the compress path; it returns the resulting text when
    all three succeed and answers 400 with the decompression message when
    one fails.  The resulting text is returned as it is: nothing is said
    about how it ends. *)
Theorem marked_payload_is_unpacked `{Platform} (request : Request) (image : bytes)
    (w : World) (data : string) :
  scan image = inr data ->
  endswith data "|compressed" = true ->
  decode_qr request image w =
    match and_then (b64decode (drop_last 11 data))
            (fun decoded => and_then (zlib_decompress decoded) utf8_decode) with
    | inr text =>
        (inr (JSONResponse 200 [("decoded", JStr text)]),
         logged (client_host request) "decode" "标准解码成功"
           (record_call CallDetectAndDecode w))
    | inl _ =>
        (inl (HTTPException 400 (str (HTTPException 400 DECOMPRESSION_DETAIL))),
         logged (client_host request) "decode_error"
           (str (HTTPException 400 DECOMPRESSION_DETAIL))
           (record_call CallDetectAndDecode w))
    end.
Proof.
  intros Hscan Hends.
  rewrite (decode_qr_scanned request image w data Hscan), Hends.
  rewrite (endswith_not_empty data "|compressed" eq_refl Hends).
  unfold unpack, decode_reply, decode_failure.
  destruct (and_then _ _); now run_m.
Qed.

Lemma marked_payload_is_unpacked_witness :
  let P := Stub.platform true in
  decode_qr (sample_request "/decode" NoParams) "Q7868656c6c6f|compressed" initial_world =
    match and_then (b64decode (drop_last 11 "7868656c6c6f|compressed"))
            (fun decoded => and_then (zlib_decompress decoded) utf8_decode) with
    | inr text =>
        (inr (JSONResponse 200 [("decoded", JStr text)]),
         logged "203.0.113.7" "decode" "标准解码成功"
           (record_call CallDetectAndDecode initial_world))
    | inl _ =>
        (inl (HTTPException 400 (str (HTTPException 400 DECOMPRESSION_DETAIL))),
         logged "203.0.113.7" "decode_error"
           (str (HTTPException 400 DECOMPRESSION_DETAIL))
           (record_call CallDetectAndDecode initial_world))
    end.
Proof.
  apply (@marked_payload_is_unpacked (Stub.platform true)
           (sample_request "/decode" NoParams) "Q7868656c6c6f|compressed" initial_world
           "7868656c6c6f|compressed").
  - reflexivity.
  - reflexivity.
Defined.

(** C9 as stated fails in its last part: the text "a|compressed", encoded
    with compression, is decoded to "a|compressed", a text that ends with
    the marker. *)
Lemma decoded_text_may_end_with_marker :
  let P := Stub.platform true in
  let image := "Q78617c636f6d70726573736564|compressed" in
  fst (generate_qr (sample_request "/generate" NoParams) "a|compressed" true
         DEFAULT_COLOR DEFAULT_BG_COLOR None initial_world)
    = inr (StreamingResponse image "image/png") /\
  scan image = inr "78617c636f6d70726573736564|compressed" /\
  fst (decode_qr (sample_request "/decode" NoParams) image initial_world)
    = inr (JSONResponse 200 [("decoded", JStr "a|compressed")]) /\
  endswith "a|compressed" "|compressed" = true.
Proof. repeat split; vm_compute; reflexivity. Qed.

(** ** Error-correction levels *)

Lemma lowest_level (level : ErrorCorrection) : ec_rank ERROR_CORRECT_L <= ec_rank level.
Proof. destruct level; simpl; lia. Qed.

Lemma next_level (level : ErrorCorrection) :
  ec_rank ERROR_CORRECT_L < ec_rank level -> ec_rank ERROR_CORRECT_M <= ec_rank level.
Proof. destruct level; simpl; lia. Qed.

(** C3 (the code departs from it): take a text that is not empty and whose
    payload overflows the first call to the encoder, which is at the lowest
    error-correction level (L).  [generate_qr] then calls the encoder
    exactly once more, at the next-higher level (M) and on the same data,
    but on the object the first call left at version 41.  The library
    refuses that object with an error that is not a capacity overflow, so
    the clause that raises the capacity message is not entered: the request
    is answered 400 with the library's message about the version, and that
    message is what the "generate_error" row records. *)
Theorem overflow_retry_is_refused `{Platform} (request : Request) (text : string)
    (compress : bool) (color bg_color : string) (logo : option bytes) (data : string)
    (w : World) :
  qrcode_version_law ->
  is_empty text = false ->
  payload text compress = inr data ->
  overflows (fst (make (first_try data))) = true ->
  let result := generate_qr request text compress color bg_color logo w in
  error_correction (first_try data) = ERROR_CORRECT_L /\
  (forall level, ec_rank ERROR_CORRECT_L <= ec_rank level) /\
  calls (snd result) =
    (calls w ++ [CallMake (first_try data); CallMake (second_try data)])%list /\
  error_correction (second_try data) = ERROR_CORRECT_M /\
  (forall level, ec_rank ERROR_CORRECT_L < ec_rank level ->
     ec_rank ERROR_CORRECT_M <= ec_rank level) /\
  data_list (first_try data) = [data] /\
  data_list (second_try data) = [data] /\
  version (first_try data) = None /\
  version (second_try data) = Some 41 /\
  overflows (fst (make (second_try data))) = false /\
  exists message,
    fst (make (second_try data)) = inl (Error message) /\
    result =
      (inl (HTTPException 400 message),
       logged (client_host request) "generate_error" message
         (record_call (CallMake (second_try data))
            (record_call (CallMake (first_try data)) w))).
Proof.
  intros Hlaw Hempty Hpayload Hfirst. cbv zeta.
  assert (Hversion : version (second_try data) = Some 41).
  { unfold second_try. simpl. now apply (Hlaw (first_try data)). }
  destruct (proj2 (Hlaw (second_try data)) Hversion) as (message & Hsecond).
  rewrite (generate_qr_retry_raises request text compress color bg_color logo data message w
             Hempty Hpayload Hfirst Hsecond).
  split; [reflexivity|]. split; [exact lowest_level|].
  split. { cbn [snd]. rewrite logged_calls. simpl. now rewrite <- app_assoc. }
  split; [reflexivity|]. split; [exact next_level|]. split; [reflexivity|].
  split; [reflexivity|]. split; [reflexivity|]. split; [exact Hversion|].
  split. { now rewrite Hsecond. }
  exists message. split; [exact Hsecond | reflexivity].
Qed.

Lemma overflow_retry_is_refused_witness :
  let P := Stub.platform true in
  let request := sample_request "/generate" NoParams in
  let result := generate_qr request oversized_text false DEFAULT_COLOR DEFAULT_BG_COLOR
                  None initial_world in
  calls (snd result) =
    [CallMake (first_try oversized_text); CallMake (second_try oversized_text)] /\
  version (second_try oversized_text) = Some 41 /\
  fst result = inl (HTTPException 400 "Invalid version (was 41, expected 1 to 40)") /\
  fst result <> inl (HTTPException 400 (str (HTTPException 400 CAPACITY_DETAIL))).
Proof.
  cbv zeta.
  destruct (@overflow_retry_is_refused (Stub.platform true)
              (sample_request "/generate" NoParams) oversized_text false
              DEFAULT_COLOR DEFAULT_BG_COLOR None oversized_text initial_world
              (stub_qrcode_version_law true))
    as (_ & _ & Hcalls & _ & _ & _ & _ & _ & Hversion & _ & message & Hmake & Hresult);
    [vm_compute; reflexivity | reflexivity | vm_compute; reflexivity |].
  assert (Hmessage : message = "Invalid version (was 41, expected 1 to 40)").
  { vm_compute in Hmake. now injection Hmake. }
  subst message.
  split; [rewrite Hcalls; vm_compute; reflexivity|].
  split; [exact Hversion|].
  rewrite Hresult. cbn [fst]. split; [reflexivity|].
  intros Heq. vm_compute in Heq. discriminate.
Defined.

(** Where the library refuses the first call itself with such an error,
    there is no second call and the answer is again the library's
    message. *)
Lemma first_call_refused `{Platform} (request : Request) (text : string) (compress : bool)
    (color bg_color : string) (logo : option bytes) (data message : string) (w : World) :
  is_empty text = false ->
  payload text compress = inr data ->
  fst (make (first_try data)) = inl (Error message) ->
  generate_qr request text compress color bg_color logo w =
    (inl (HTTPException 400 message),
     logged (client_host request) "generate_error" message
       (record_call (CallMake (first_try data)) w)).
Proof.
  intros Hempty Hpayload Hfirst.
  unfold generate_qr, payload, first_try in *. rewrite Hempty.
  destruct compress; run_m.
  - destruct (utf8_decode _) as [e|b64]; [discriminate|]. injection Hpayload as <-.
    run_m. rewrite Hfirst. now run_m.
  - injection Hpayload as <-. rewrite Hfirst. now run_m.
Qed.

(** ** The rate limiter in front of the endpoints *)

(** C4: take any client, any limited endpoint and any 60-second span at
    whose beginning the pair has no open window.  Of the requests of that
    client to that endpoint served within the span, whatever other requests
    are served in between, the first five are let through and every later
    one is answered 429.  A request answered 429 gets the rate-limit
    response, and the store and the log of capability calls are as before:
    the endpoint was not run and no audit row of any kind was written. *)
Theorem rate_limit `{Platform} (host : string) (op : Operation) (t0 : Z)
    (requests : list Request) (w : World) :
  no_open_window w (host, op_path op) t0 ->
  Forall (fun r => targets host op r = true -> t0 <= arrival r < t0 + WINDOW) requests ->
  verdicts host op requests (fst (run w requests)) =
    map (fun i => (5 <=? i)%nat)
        (seq 0 (length (List.filter (targets host op) requests))) /\
  (forall (w1 : World) (r : Request) (op1 : Operation),
     operation_of r = Some op1 ->
     status (fst (serve w1 r)) = 429 ->
     fst (serve w1 r) = TOO_MANY_REQUESTS /\
     store (snd (serve w1 r)) = store w1 /\
     calls (snd (serve w1 r)) = calls w1).
Proof.
  intros Hopen Htimes. split.
  - apply (run_verdicts host op t0 requests 0%nat w); assumption.
  - intros w1 r op1 Hop Hstatus.
    destruct (serve_operation_summary r op1 w1 Hop) as (allowed & _ & _ & Hserved).
    destruct allowed.
    + destruct Hserved as (_ & [[H200 _] | (caught & Hresp & _)]).
      * rewrite H200 in Hstatus. discriminate.
      * rewrite Hresp in Hstatus. discriminate.
    + rewrite Hserved. repeat split; reflexivity.
Qed.

Lemma rate_limit_witness :
  let P := Stub.platform true in
  verdicts "203.0.113.7" Generate burst (fst (run initial_world burst)) =
    map (fun i => (5 <=? i)%nat)
        (seq 0 (length (List.filter (targets "203.0.113.7" Generate) burst))) /\
  (forall (w1 : World) (r : Request) (op1 : Operation),
     operation_of r = Some op1 ->
     status (fst (serve w1 r)) = 429 ->
     fst (serve w1 r) = TOO_MANY_REQUESTS /\
     store (snd (serve w1 r)) = store w1 /\
     calls (snd (serve w1 r)) = calls w1).
Proof.
  apply (@rate_limit (Stub.platform true) "203.0.113.7" Generate 1000 burst initial_world).
  - unfold no_open_window. simpl. rewrite lookup_empty. exact I.
  - unfold burst, WINDOW. repeat (constructor; [intros _; simpl; lia|]). constructor.
Defined.

Example burst_statuses :
  let P := Stub.platform true in
  map status (fst (run initial_world burst)) = [200; 200; 200; 200; 200; 200; 200; 429] /\
  map action (rows (store (snd (run initial_world burst)))) =
    ["generate"; "generate"; "generate"; "generate"; "generate"; "decode"; "generate"].
Proof. split; vm_compute; reflexivity. Qed.

(** ** One audit row per processed request *)

(** C5 (amended): while the store accepts writes, a request that is handed to one of
    the three limited endpoints and is not answered 429 adds exactly one
    row: that of the client, carrying the success action (generate, decode,
    ocr) when the answer is 200 and its [_error] variant when the answer is
    400, which are the only two answers.  A request to any path other than
    the three adds exactly one "access" row; a request to one of the three
    paths never adds an "access" row. *)
Theorem one_terminal_record `{Platform} (request : Request) (w : World) :
  failing (store w) = false ->
  let served := serve w request in
  (forall op, operation_of request = Some op -> status (fst served) <> 429 ->
     (status (fst served) = 200 \/ status (fst served) = 400) /\
     exists details,
       rows (store (snd served)) =
         (rows (store w) ++
          [ {| id := last_id (store w) + 1; ip := client_host request;
               timestamp := arrival request;
               action := (if status (fst served) =? 200 then op_action op
                          else op_action op ++ "_error");
               details := details |} ])%list) /\
  (path_in (path request) ["/generate"; "/decode"; "/ocr"] = false ->
     rows (store (snd served)) =
       (rows (store w) ++
        [ {| id := last_id (store w) + 1; ip := client_host request;
             timestamp := arrival request; action := "access";
             details := "访问 " ++ path request |} ])%list) /\
  (path_in (path request) ["/generate"; "/decode"; "/ocr"] = true ->
     exists added,
       rows (store (snd served)) = (rows (store w) ++ added)%list /\
       Forall (fun r => action r <> "access") added).
Proof.
  intros Hok. cbv zeta.
  assert (Hop : forall op, operation_of request = Some op ->
            status (fst (serve w request)) <> 429 ->
            (status (fst (serve w request)) = 200 \/ status (fst (serve w request)) = 400) /\
            exists details,
              rows (store (snd (serve w request))) =
                (rows (store w) ++
                 [ {| id := last_id (store w) + 1; ip := client_host request;
                      timestamp := arrival request;
                      action := (if status (fst (serve w request)) =? 200 then op_action op
                                 else op_action op ++ "_error");
                      details := details |} ])%list).
  { intros op Hop Hstatus.
    destruct (serve_operation_summary request op w Hop) as (allowed & _ & _ & Hserved).
    destruct allowed.
    - destruct Hserved as (_ & [[H200 (details & Hrow)] | (caught & Hresp & Hrow)]).
      + split; [left; exact H200|]. exists details.
        rewrite Hrow, H200, written_rows by exact Hok. reflexivity.
      + split; [right; now rewrite Hresp|]. exists (str caught).
        rewrite Hrow, Hresp, written_rows by exact Hok. reflexivity.
    - rewrite Hserved in Hstatus. now contradiction Hstatus. }
  split; [exact Hop|]. split.
  - intros Hin. destruct (serve_other request w Hin) as (response & ->). cbn [snd].
    rewrite logged_store, written_rows by exact Hok. reflexivity.
  - intros Hin. destruct (operation_of request) as [op|] eqn:Hrouted.
    + destruct (Z.eq_dec (status (fst (serve w request))) 429) as [H429|Hne].
      * destruct (serve_operation_summary request op w Hrouted)
          as (allowed & _ & _ & Hserved).
        destruct allowed.
        -- destruct Hserved as (_ & [[H200 _] | (caught & Hresp & _)]).
           ++ rewrite H200 in H429. discriminate.
           ++ rewrite Hresp in H429. discriminate.
        -- rewrite Hserved. exists []. split; [now rewrite app_nil_r | constructor].
      * destruct (Hop op eq_refl Hne) as (_ & details & Hrow).
        eexists. split; [exact Hrow|]. constructor; [|constructor].
        simpl. destruct op, (status (fst (serve w request)) =? 200); discriminate.
    + destruct (serve_unrouted request w Hin Hrouted) as (response & -> & _).
      exists []. split; [now rewrite app_nil_r | constructor].
Qed.

Lemma one_terminal_record_witness :
  let P := Stub.platform true in
  let request := {| client_host := "203.0.113.7"; arrival := 1000; method := POST;
                    path := "/decode"; params := UploadParams "Qhello" |} in
  let served := serve initial_world request in
  (status (fst served) = 200 \/ status (fst served) = 400) /\
  exists details,
    rows (store (snd served)) =
      [ {| id := 1; ip := "203.0.113.7"; timestamp := 1000;
           action := (if status (fst served) =? 200 then "decode" else "decode_error");
           details := details |} ].
Proof.
  cbv zeta.
  destruct (@one_terminal_record (Stub.platform true)
              {| client_host := "203.0.113.7"; arrival := 1000; method := POST;
                 path := "/decode"; params := UploadParams "Qhello" |}
              initial_world eq_refl) as (Hop & _ & _).
  apply (Hop Decode); [reflexivity | vm_compute; discriminate].
Defined.

Example audit_rows_run :
  let P := Stub.platform true in
  let image r := match content r with Stream _ data => data | _ => "" end in
  let '(r1, w1) := serve initial_world
                     (mkRequest "203.0.113.7" 1000 POST "/generate"
                        (GenerateParams "hello" false DEFAULT_COLOR DEFAULT_BG_COLOR None)) in
  let '(r2, w2) := serve w1 (mkRequest "203.0.113.7" 1001 POST "/decode" (UploadParams "junk")) in
  let '(r3, w3) := serve w2 (mkRequest "198.51.100.2" 1002 GET "/health" NoParams) in
  let '(r4, w4) := serve w3 (mkRequest "198.51.100.2" 1003 GET "/generate" NoParams) in
  map status [r1; r2; r3; r4] = [200; 400; 200; 405] /\
  map (fun r => (id r, ip r, action r)) (rows (store w4)) =
    [ (1, "203.0.113.7", "generate"); (2, "203.0.113.7", "decode_error");
      (3, "198.51.100.2", "access") ].
Proof. vm_compute. split; reflexivity. Qed.

(** C5 as stated fails when the store refuses the insert: the store of the
    service may start failing at any time, [log_action] swallows the
    failure, and a [POST /generate] of "hello" is then answered 200 after
    one call to the encoder while the table stays empty. *)
Lemma swallowed_insert_leaves_no_record :
  let P := Stub.platform true in
  let w := set_failing initial_world true in
  let request := mkRequest "203.0.113.7" 1000 POST "/generate"
                   (GenerateParams "hello" false DEFAULT_COLOR DEFAULT_BG_COLOR None) in
  reachable w /\
  operation_of request = Some Generate /\
  status (fst (serve w request)) = 200 /\
  calls (snd (serve w request)) = [CallMake (first_try "hello")] /\
  rows (store (snd (serve w request))) = [].
Proof.
  cbv zeta. split; [apply reach_fault, reach_start|].
  repeat split; vm_compute; reflexivity.
Qed.

(** For every request: while the store is failing, the write of
    [log_action] is swallowed and serving the request leaves the table as
    it was. *)
Lemma failing_store_keeps_rows `{Platform} (request : Request) (w : World) :
  failing (store w) = true -> store (snd (serve w request)) = store w.
Proof.
  intros Hfail.
  destruct (operation_of request) as [op|] eqn:Hop.
  - destruct (serve_operation_summary request op w Hop) as (allowed & _ & _ & Hserved).
    destruct allowed.
    + destruct Hserved as (_ & [[_ (details & ->)] | (caught & _ & ->)]);
        unfold written; now rewrite Hfail.
    + now rewrite Hserved.
  - destruct (path_in (path request) LIMITED_PATHS) eqn:Hin.
    + destruct (serve_unrouted request w Hin Hop) as (response & -> & _). reflexivity.
    + destruct (serve_other request w Hin) as (response & ->). cbn [snd].
      rewrite logged_store. unfold written. simpl. now rewrite Hfail.
Qed.

(** ** Error responses of the three endpoints *)

(** C6 (amended): a request handed to /generate, /decode or /ocr is
    answered 200, or 429 by the rate limiter, or 400; every exception
    raised inside the endpoint, deliberate (validation, not-found,
    capacity, decompression, logo) or unexpected (a fault raised by a
    library), is caught and answered 400 with the text of that exception
    as the detail.  No 5xx answer comes from these endpoints. *)
Theorem endpoint_failures_are_400 `{Platform} (request : Request) (op : Operation)
    (w : World) :
  operation_of request = Some op ->
  (fst (serve w request) = TOO_MANY_REQUESTS \/
   status (fst (serve w request)) = 200 \/
   exists caught,
     fst (serve w request) = JSONResponse 400 [("detail", JStr (str caught))]) /\
  handled (endpoint request w) /\
  (forall image e, Image_open image = inl e ->
     fst (decode_qr request image w) = inl (HTTPException 400 (str e)) /\
     fst (ocr_image request image w) = inl (HTTPException 400 (str e))) /\
  (forall compress color bg_color logo,
     fst (generate_qr request "" compress color bg_color logo w) =
       inl (HTTPException 400 (str (HTTPException 400 EMPTY_TEXT_DETAIL)))) /\
  (forall text compress color bg_color logo data,
     is_empty text = false -> payload text compress = inr data ->
     overflows (fst (make (first_try data))) = true ->
     overflows (fst (make (second_try data))) = true ->
     fst (generate_qr request text compress color bg_color logo w) =
       inl (HTTPException 400 (str (HTTPException 400 CAPACITY_DETAIL)))) /\
  (forall image, scan image = inr "" ->
     fst (decode_qr request image w) =
       inl (HTTPException 400 (str (HTTPException 400 NO_SYMBOL_DETAIL)))) /\
  (forall image data, scan image = inr data -> endswith data "|compressed" = true ->
     (forall text, unpack data <> inr text) ->
     fst (decode_qr request image w) =
       inl (HTTPException 400 (str (HTTPException 400 DECOMPRESSION_DETAIL)))) /\
  (forall image, recognized image = inr "" ->
     fst (ocr_image request image w) =
       inl (HTTPException 400 (str (HTTPException 400 NO_TEXT_DETAIL)))) /\
  (forall text compress color bg_color file data,
     is_empty text = false -> payload text compress = inr data ->
     fst (make (first_try data)) = inr tt ->
     (exists img, make_image (after_make (first_try data)) color bg_color = inr img) ->
     (exists e, Image_open file = inl e) ->
     fst (generate_qr request text compress color bg_color (Some file) w) =
       inl (HTTPException 400 (str (HTTPException 400 LOGO_DETAIL)))).
Proof.
  intros Hop. split.
  { destruct (serve_operation_summary request op w Hop) as (allowed & _ & _ & Hserved).
    destruct allowed.
    - destruct Hserved as (_ & [[H200 _] | (caught & Hresp & _)]).
      + right. left. exact H200.
      + right. right. exists caught. exact Hresp.
    - left. now rewrite Hserved. }
  split; [apply (endpoint_audited request op w Hop)|].
  split.
  { intros image e Hopen. split.
    - now apply decode_qr_unreadable.
    - now apply ocr_image_unreadable. }
  split.
  { intros compress color bg_color logo. now rewrite generate_qr_empty. }
  split.
  { intros text compress color bg_color logo data Hempty Hpayload Hfirst Hsecond.
    now rewrite (generate_qr_overflow request text compress color bg_color logo data w
                   Hempty Hpayload Hfirst Hsecond). }
  split.
  { intros image Hscan. rewrite (decode_qr_scanned request image w "" Hscan).
    unfold decode_failure. now run_m. }
  split.
  { intros image data Hscan Hends Hfail.
    rewrite (decode_qr_scanned request image w data Hscan), Hends.
    rewrite (endswith_not_empty data "|compressed" eq_refl Hends).
    destruct (unpack data) as [e|text]; [|now contradiction (Hfail text)].
    unfold decode_failure. now run_m. }
  split.
  { intros image Hfound. now rewrite (ocr_image_recognized request image w "" Hfound). }
  intros text compress color bg_color file data. apply generate_qr_bad_logo.
Qed.

Lemma endpoint_failures_are_400_witness :
  let P := Stub.platform false in
  let request := {| client_host := "203.0.113.7"; arrival := 1000; method := POST;
                    path := "/ocr"; params := UploadParams "Thello" |} in
  fst (serve initial_world request) = TOO_MANY_REQUESTS \/
  status (fst (serve initial_world request)) = 200 \/
  exists caught,
    fst (serve initial_world request) = JSONResponse 400 [("detail", JStr (str caught))].
Proof.
  cbv zeta.
  apply (@endpoint_failures_are_400 (Stub.platform false)
           {| client_host := "203.0.113.7"; arrival := 1000; method := POST;
              path := "/ocr"; params := UploadParams "Thello" |} Ocr initial_world).
  reflexivity.
Defined.

(** C6 as stated fails on an unexpected internal fault: when the
    recognition models cannot be loaded, a fault that has nothing to do
    with the request, [/ocr] answers 400, not a 5xx status. *)
Lemma internal_fault_is_answered_400 :
  let P := Stub.platform false in
  let request := {| client_host := "203.0.113.7"; arrival := 1000; method := POST;
                    path := "/ocr"; params := UploadParams "Thello" |} in
  easyocr_Reader ["en"; "ch_sim"] false = inl (Error "recognition model could not be loaded") /\
  fst (serve initial_world request) =
    JSONResponse 400 [("detail", JStr "recognition model could not be loaded")] /\
  ~ (500 <= status (fst (serve initial_world request)) < 600).
Proof.
  cbv zeta. split; [reflexivity|]. split; [vm_compute; reflexivity|].
  vm_compute. intros [Hge _]. apply Hge. reflexivity.
Qed.

(** ** The CSV export *)

(** C7 (amended): in every state the service can reach, the export, when
    its query succeeds, is the header row with the cells ID, IP, 时间戳, 操作,
    详情 (the last three in Chinese), followed by one row per audit record in
    the order of the table, which is the order of strictly increasing ids;
    the cells of a row are joined by commas, and there are as many data
    rows as records.  When the query fails the answer is 500. *)
Theorem export_is_header_then_rows `{Platform} (w : World) :
  reachable w ->
  let table := map row_cells (rows (store w)) in
  (failing (store w) = false ->
     export_logs w =
       (inr (StreamingResponse
               (writerow ["ID"; "IP"; "时间戳"; "操作"; "详情"] ++ writerows table)
               "text/csv"), w)) /\
  (failing (store w) = true ->
     export_logs w = (inl (HTTPException 500 "日志导出失败"), w)) /\
  writerow ["ID"; "IP"; "时间戳"; "操作"; "详情"] = "ID,IP,时间戳,操作,详情" ++ CRLF /\
  (forall cells, writerow cells = join "," (map csv_cell cells) ++ CRLF) /\
  writerows table = String.concat "" (map writerow table) /\
  length table = length (rows (store w)) /\
  (forall i r, rows (store w) !! i = Some r ->
     table !! i =
       Some [str_of_int (id r); ip r; datetime_text (timestamp r); action r; details r]) /\
  StronglySorted Z.lt (map id (rows (store w))).
Proof.
  intros Hreach. cbv zeta.
  split. { intros Hok. unfold export_logs, select_all. run_m. now rewrite Hok. }
  split. { intros Hfail. unfold export_logs, select_all. run_m. now rewrite Hfail. }
  split; [reflexivity|]. split; [reflexivity|]. split; [reflexivity|].
  split; [apply length_map|].
  split.
  { intros i r Hr. change (map row_cells (rows (store w))) with (row_cells <$> rows (store w)).
    rewrite list_lookup_fmap, Hr. reflexivity. }
  apply (reachable_ids_ascend w Hreach).
Qed.

Lemma export_is_header_then_rows_witness :
  let P := Stub.platform true in
  let w := snd (run initial_world burst) in
  let table := map row_cells (rows (store w)) in
  (failing (store w) = false ->
     export_logs w =
       (inr (StreamingResponse
               (writerow ["ID"; "IP"; "时间戳"; "操作"; "详情"] ++ writerows table)
               "text/csv"), w)) /\
  (failing (store w) = true ->
     export_logs w = (inl (HTTPException 500 "日志导出失败"), w)) /\
  writerow ["ID"; "IP"; "时间戳"; "操作"; "详情"] = "ID,IP,时间戳,操作,详情" ++ CRLF /\
  (forall cells, writerow cells = join "," (map csv_cell cells) ++ CRLF) /\
  writerows table = String.concat "" (map writerow table) /\
  length table = length (rows (store w)) /\
  (forall i r, rows (store w) !! i = Some r ->
     table !! i =
       Some [str_of_int (id r); ip r; datetime_text (timestamp r); action r; details r]) /\
  StronglySorted Z.lt (map id (rows (store w))).
Proof.
  apply (@export_is_header_then_rows (Stub.platform true) (snd (run initial_world burst))).
  apply reachable_run. constructor.
Defined.

(** C7 as stated fails on the header: on the empty table the export is
    the single line "ID,IP,时间戳,操作,详情", not "ID,IP,Timestamp,Action,Details". *)
Lemma export_header_is_chinese :
  let P := Stub.platform true in
  reachable initial_world /\
  fst (export_logs initial_world) =
    inr (StreamingResponse ("ID,IP,时间戳,操作,详情" ++ CRLF) "text/csv") /\
  fst (export_logs initial_world) <>
    inr (StreamingResponse (writerow ["ID"; "IP"; "Timestamp"; "Action"; "Details"])
           "text/csv").
Proof.
  cbv zeta. split; [constructor|]. split; [vm_compute; reflexivity|].
  vm_compute. discriminate.
Qed.

Example export_run :
  let P := Stub.platform true in
  let '(r1, w1) := serve initial_world
                     (mkRequest "203.0.113.7" 1000 POST "/generate"
                        (GenerateParams "hello" true DEFAULT_COLOR DEFAULT_BG_COLOR None)) in
  let '(r2, w2) := serve w1 (mkRequest "198.51.100.2" 1001 GET "/logs/export" NoParams) in
  content r2 =
    Stream "text/csv"
      ("ID,IP,时间戳,操作,详情" ++ CRLF ++
       "1,203.0.113.7,1000,generate," ++
       String QUOTE ("文本长度: 5, 压缩: True" ++ String QUOTE CRLF)).
Proof. vm_compute. reflexivity. Qed.

(** ** The statistics snapshot *)

(** C8: start from an empty table that accepts writes and serve only
    requests handed to the three limited endpoints, all of them answered
    200: then [get_stats] reports, as generations, decodings and OCR
    extractions, the numbers of requests handed to /generate, /decode and
    /ocr, and as unique users the number of distinct client addresses among
    the requests.  When the store is failing, and when the table is empty,
    [get_stats] returns the all-zero snapshot and raises nothing. *)
Theorem snapshot_counts `{Platform} (requests : list Request) (w : World) :
  rows (store w) = [] ->
  failing (store w) = false ->
  Forall (fun r => is_Some (operation_of r)) requests ->
  Forall (fun response => status response = 200) (fst (run w requests)) ->
  get_stats (snd (run w requests)) =
    (inr {| generations := Z.of_nat (handed_to Generate requests);
            decodings := Z.of_nat (handed_to Decode requests);
            ocr_extractions := Z.of_nat (handed_to Ocr requests);
            unique_users := Z.of_nat (length (remove_dups (client_host <$> requests))) |},
     snd (run w requests)) /\
  (forall w', failing (store w') = true ->
     get_stats w' = (inr {| generations := 0; decodings := 0; ocr_extractions := 0;
                            unique_users := 0 |}, w')) /\
  (forall w', rows (store w') = [] ->
     get_stats w' = (inr {| generations := 0; decodings := 0; ocr_extractions := 0;
                            unique_users := 0 |}, w')).
Proof.
  intros Hempty Hok Hops Hstatus.
  destruct (run_successes requests w Hok Hops Hstatus) as (Hfinal & Hips & Hactions).
  rewrite Hempty in Hips, Hactions. simpl in Hips, Hactions.
  split.
  { rewrite get_stats_spec. unfold snapshot. rewrite Hfinal, Hips.
    rewrite !count_action_fmap, Hactions.
    rewrite (count_operations Generate), (count_operations Decode), (count_operations Ocr).
    reflexivity. }
  split.
  - intros w' Hfail. rewrite get_stats_spec. unfold snapshot. now rewrite Hfail.
  - intros w' Hnone. rewrite get_stats_spec. unfold snapshot. rewrite Hnone.
    now destruct (failing (store w')).
Qed.

Lemma snapshot_counts_witness :
  let P := Stub.platform true in
  get_stats (snd (run initial_world traffic)) =
    (inr {| generations := Z.of_nat (handed_to Generate traffic);
            decodings := Z.of_nat (handed_to Decode traffic);
            ocr_extractions := Z.of_nat (handed_to Ocr traffic);
            unique_users := Z.of_nat (length (remove_dups (client_host <$> traffic))) |},
     snd (run initial_world traffic)) /\
  (forall w', failing (store w') = true ->
     get_stats w' = (inr {| generations := 0; decodings := 0; ocr_extractions := 0;
                            unique_users := 0 |}, w')) /\
  (forall w', rows (store w') = [] ->
     get_stats w' = (inr {| generations := 0; decodings := 0; ocr_extractions := 0;
                            unique_users := 0 |}, w')).
Proof.
  apply (@snapshot_counts (Stub.platform true) traffic initial_world).
  - reflexivity.
  - reflexivity.
  - unfold traffic. repeat constructor; eexists; reflexivity.
  - vm_compute. repeat constructor.
Defined.

Example traffic_stats :
  let P := Stub.platform true in
  fst (get_stats (snd (run initial_world traffic))) =
    inr {| generations := 2; decodings := 1; ocr_extractions := 1; unique_users := 2 |}.
Proof. vm_compute. reflexivity. Qed.

(** C10: the unique-users figure is the number of distinct addresses over
    all rows of the table, whatever their action.  So, while the store
    accepts writes, a request to a path other than /generate, /decode and
    /ocr (the home page, /stats, ...) from an address that has no row yet
    raises the figure by one, and leaves the three operation counts as they
    were: that address performed no operation. *)
Theorem unique_users_counts_every_row `{Platform} (request : Request) (w : World) :
  failing (store w) = false ->
  path_in (path request) ["/generate"; "/decode"; "/ocr"] = false ->
  client_host request ∉ ip <$> rows (store w) ->
  exists before after,
    get_stats w = (inr before, w) /\
    unique_users before = Z.of_nat (length (remove_dups (ip <$> rows (store w)))) /\
    get_stats (snd (serve w request)) = (inr after, snd (serve w request)) /\
    action <$> rows (store (snd (serve w request))) =
      ((action <$> rows (store w)) ++ ["access"])%list /\
    unique_users after = unique_users before + 1 /\
    generations after = generations before /\
    decodings after = decodings before /\
    ocr_extractions after = ocr_extractions before.
Proof.
  intros Hok Hin Hfresh.
  exists (snapshot (store w)), (snapshot (store (snd (serve w request)))).
  rewrite !get_stats_spec.
  destruct (serve_other request w Hin) as (response & ->). cbn [snd].
  rewrite logged_store. unfold snapshot, written. simpl. rewrite Hok. simpl.
  rewrite !fmap_app, !filter_app, !length_app. simpl.
  rewrite (remove_dups_snoc_fresh _ _ Hfresh).
  repeat split; lia.
Qed.

Lemma unique_users_counts_every_row_witness :
  let P := Stub.platform true in
  let w := snd (run initial_world traffic) in
  let request := {| client_host := "192.0.2.44"; arrival := 1100; method := GET;
                    path := "/stats"; params := NoParams |} in
  exists before after,
    get_stats w = (inr before, w) /\
    unique_users before = Z.of_nat (length (remove_dups (ip <$> rows (store w)))) /\
    get_stats (snd (serve w request)) = (inr after, snd (serve w request)) /\
    action <$> rows (store (snd (serve w request))) =
      ((action <$> rows (store w)) ++ ["access"])%list /\
    unique_users after = unique_users before + 1 /\
    generations after = generations before /\
    decodings after = decodings before /\
    ocr_extractions after = ocr_extractions before.
Proof.
  apply (@unique_users_counts_every_row (Stub.platform true)
           {| client_host := "192.0.2.44"; arrival := 1100; method := GET;
              path := "/stats"; params := NoParams |}
           (snd (run initial_world traffic))).
  - vm_compute. reflexivity.
  - reflexivity.
  - vm_compute. intros Hin. repeat (apply elem_of_cons in Hin as [Hin|Hin]; [discriminate|]).
    now apply elem_of_nil in Hin.
Defined.

Example access_counts_as_user :
  let P := Stub.platform true in
  let w := snd (run initial_world traffic) in
  let request := {| client_host := "192.0.2.44"; arrival := 1100; method := GET;
                    path := "/stats"; params := NoParams |} in
  fst (get_stats w) =
    inr {| generations := 2; decodings := 1; ocr_extractions := 1; unique_users := 2 |} /\
  fst (get_stats (snd (serve w request))) =
    inr {| generations := 2; decodings := 1; ocr_extractions := 1; unique_users := 3 |}.
Proof. split; vm_compute; reflexivity. Qed.

(** * Further properties of the program *)

(** ** The audit store *)

Section MoreFacts.
Context `{Platform}.

Lemma generate_qr_response_any_world (request : Request) (text : string) (compress : bool)
    (color bg_color : string) (logo : option bytes) (w w' : World) :
  fst (generate_qr request text compress color bg_color logo w) =
  fst (generate_qr request text compress color bg_color logo w').
Proof. unfold generate_qr. repeat (run_m; split_match); now run_m. Qed.

Lemma decode_qr_response_any_world (request : Request) (image : bytes) (w w' : World) :
  fst (decode_qr request image w) = fst (decode_qr request image w').
Proof. unfold decode_qr. repeat (run_m; split_match); now run_m. Qed.

Lemma ocr_image_response_any_world (request : Request) (image : bytes) (w w' : World) :
  fst (ocr_image request image w) = fst (ocr_image request image w').
Proof. unfold ocr_image. repeat (run_m; split_match); now run_m. Qed.

Lemma endpoint_response_any_world (request : Request) (w w' : World) :
  fst (endpoint request w) = fst (endpoint request w').
Proof.
  unfold endpoint. destruct (params request) as [|text compress color bg logo|image].
  - reflexivity.
  - apply generate_qr_response_any_world.
  - destruct (String.eqb (path request) "/decode");
      [apply decode_qr_response_any_world | apply ocr_image_response_any_world].
Qed.

Lemma hit_any_store (key : string * string) (w : World) (s : Store) :
  fst (hit key (set_store w s)) = fst (hit key w).
Proof. unfold hit. simpl. repeat split_match; reflexivity. Qed.

End MoreFacts.

(** X2: what a limited endpoint answers does not depend on the audit
    store: with any other table in its place, failing or not, a request to
    /generate, /decode or /ocr gets the same response.  A failure to write
    the audit row never replaces the outcome of the operation. *)
Theorem response_ignores_store `{Platform} (request : Request) (op : Operation)
    (w : World) (s : Store) :
  operation_of request = Some op ->
  fst (serve (set_store w s) request) = fst (serve w request).
Proof.
  intros Hop. rewrite !(serve_operation _ op) by exact Hop. cbv zeta.
  change (set_clock (set_store w s) (arrival request))
    with (set_store (set_clock w (arrival request)) s).
  rewrite hit_any_store.
  destruct (fst (hit _ (set_clock w (arrival request)))) as [e|[]]; try reflexivity.
  cbn [fst]. f_equal. apply endpoint_response_any_world.
Qed.

Lemma response_ignores_store_witness :
  let P := Stub.platform true in
  let request := {| client_host := "203.0.113.7"; arrival := 1000; method := POST;
                    path := "/generate";
                    params := GenerateParams "hello" false DEFAULT_COLOR DEFAULT_BG_COLOR None |} in
  fst (serve (set_store initial_world
                {| rows := []; last_id := 0; failing := true; commit_failing := true |})
         request)
    = fst (serve initial_world request).
Proof.
  apply (@response_ignores_store (Stub.platform true) _ Generate). reflexivity.
Defined.

Section TableFacts.
Context `{Platform}.

Lemma run_rows (requests : list Request) :
  forall w,
    exists added,
      rows (store (snd (run w requests))) = (rows (store w) ++ added)%list /\
      (length added <= length requests)%nat /\
      Forall (fun r => ip r ∈ client_host <$> requests) added.
Proof.
  induction requests as [|r rs IH]; intros w.
  - exists []. simpl. rewrite app_nil_r. repeat split; [lia | constructor].
  - rewrite run_cons. cbn [snd].
    destruct (IH (snd (serve w r))) as (added & Hrows & Hlen & Hips).
    assert (Hlater : Forall (fun x => ip x ∈ client_host <$> r :: rs) added).
    { eapply Forall_impl; [exact Hips|]. intros x Hx. rewrite fmap_cons.
      apply elem_of_cons. now right. }
    destruct (serve_store_step r w) as [Hsame | (action & details & Hwritten)].
    + exists added. rewrite Hrows, Hsame. repeat split; [simpl; lia | exact Hlater].
    + rewrite Hrows, Hwritten. unfold written. destruct (failing (store w)).
      * exists added. repeat split; [simpl; lia | exact Hlater].
      * eexists (_ :: added). simpl. rewrite <- app_assoc. simpl.
        repeat split; [lia|]. constructor; [|exact Hlater].
        simpl. apply elem_of_cons. now left.
Qed.

Lemma written_ids_count_up (s : Store) (t : Z) (ip action details : string) :
  ids_count_up s -> ids_count_up (written s t ip action details).
Proof.
  intros [Hids Hlast]. unfold written. destruct (failing s); [now split|].
  split; simpl.
  - intros i r Hr. destruct (decide (i < length (rows s))%nat) as [Hlt|Hge].
    + rewrite lookup_app_l in Hr by exact Hlt. now apply Hids.
    + rewrite lookup_app_r in Hr by lia.
      destruct (i - length (rows s))%nat as [|k] eqn:Hk; [|discriminate].
      injection Hr as <-. simpl. lia.
  - rewrite length_app. simpl. lia.
Qed.

Lemma reachable_ids_count_up (w : World) : reachable w -> ids_count_up (store w).
Proof.
  induction 1 as [|w request _ IH|w b _ IH|w b _ IH].
  - split; [intros i r Hr; discriminate | reflexivity].
  - destruct (serve_store_step request w) as [-> | (action & details & ->)];
      [exact IH | now apply written_ids_count_up].
  - exact IH.
  - exact IH.
Qed.

End TableFacts.

(** X3: the table is append-only.  Serving any sequence of requests keeps
    every row that was there, in place and unchanged, and adds at most one
    row per request, each carrying the address of one of the clients
    served. *)
Theorem table_is_append_only `{Platform} (requests : list Request) (w : World) :
  exists added,
    rows (store (snd (run w requests))) = (rows (store w) ++ added)%list /\
    (length added <= length requests)%nat /\
    Forall (fun r => ip r ∈ client_host <$> requests) added.
Proof. apply run_rows. Qed.

(** X4: in every state the service can reach, store failures included, the
    i-th row of the table (from 0) has id i + 1 and the autoincrement
    counter equals the number of rows: ids are unique, start at 1 and have
    no gaps. *)
Theorem ids_have_no_gaps `{Platform} (w : World) :
  reachable w ->
  (forall i r, rows (store w) !! i = Some r -> id r = Z.of_nat i + 1) /\
  last_id (store w) = Z.of_nat (length (rows (store w))) /\
  NoDup (map id (rows (store w))).
Proof.
  intros Hreach. destruct (reachable_ids_count_up w Hreach) as [Hids Hlast].
  split; [exact Hids|]. split; [exact Hlast|].
  apply NoDup_alt. intros i j x Hi Hj.
  change (map id (rows (store w))) with (id <$> rows (store w)) in Hi, Hj.
  rewrite list_lookup_fmap in Hi, Hj.
  destruct (rows (store w) !! i) as [ri|] eqn:Hri; [|discriminate].
  destruct (rows (store w) !! j) as [rj|] eqn:Hrj; [|discriminate].
  simpl in Hi, Hj. injection Hi as Hi. injection Hj as Hj.
  apply Hids in Hri, Hrj. lia.
Qed.

Lemma ids_have_no_gaps_witness :
  let P := Stub.platform true in
  let w := snd (run (set_failing (snd (run initial_world traffic)) true) burst) in
  (forall i r, rows (store w) !! i = Some r -> id r = Z.of_nat i + 1) /\
  last_id (store w) = Z.of_nat (length (rows (store w))) /\
  NoDup (map id (rows (store w))).
Proof.
  apply (@ids_have_no_gaps (Stub.platform true)).
  apply reachable_run. constructor. apply reachable_run. constructor.
Defined.

Section CountFacts.
Context `{Platform}.

Lemma remove_dups_app_le {A} `{EqDecision A} (l k : list A) :
  (length (remove_dups l) <= length (remove_dups (l ++ k)))%nat.
Proof.
  apply submseteq_length, NoDup_submseteq; [apply NoDup_remove_dups|].
  intros x. rewrite !elem_of_remove_dups, elem_of_app. tauto.
Qed.

Lemma serve_keeps_failing (request : Request) (w : World) :
  failing (store (snd (serve w request))) = failing (store w).
Proof.
  destruct (serve_store_step request w) as [-> | (action & details & ->)]; [reflexivity|].
  unfold written. now destruct (failing (store w)) eqn:Hf.
Qed.

Lemma run_keeps_failing (requests : list Request) :
  forall w, failing (store (snd (run w requests))) = failing (store w).
Proof.
  induction requests as [|r rs IH]; intros w; [reflexivity|].
  rewrite run_cons. cbn [snd]. now rewrite IH, serve_keeps_failing.
Qed.

End CountFacts.

(** X5: while the store accepts writes, none of the four figures of
    [get_stats] ever goes down: after any sequence of requests each figure
    is at least what it was before. *)
Theorem stats_never_decrease `{Platform} (requests : list Request) (w : World) :
  failing (store w) = false ->
  exists before after,
    get_stats w = (inr before, w) /\
    get_stats (snd (run w requests)) = (inr after, snd (run w requests)) /\
    generations before <= generations after /\
    decodings before <= decodings after /\
    ocr_extractions before <= ocr_extractions after /\
    unique_users before <= unique_users after.
Proof.
  intros Hok.
  exists (snapshot (store w)), (snapshot (store (snd (run w requests)))).
  rewrite !get_stats_spec. split; [reflexivity|]. split; [reflexivity|].
  destruct (run_rows requests w) as (added & Hrows & _ & _).
  unfold snapshot. rewrite run_keeps_failing, Hok, Hrows. simpl.
  rewrite fmap_app, !filter_app, !length_app.
  pose proof (remove_dups_app_le (ip <$> rows (store w)) (ip <$> added)).
  repeat split; lia.
Qed.

Lemma stats_never_decrease_witness :
  let P := Stub.platform true in
  exists before after,
    get_stats initial_world = (inr before, initial_world) /\
    get_stats (snd (run initial_world burst)) = (inr after, snd (run initial_world burst)) /\
    generations before <= generations after /\
    decodings before <= decodings after /\
    ocr_extractions before <= ocr_extractions after /\
    unique_users before <= unique_users after.
Proof.
  apply (@stats_never_decrease (Stub.platform true) burst initial_world). reflexivity.
Defined.

(** X6: a request to a limited endpoint that fails (answered 400) leaves
    the error row of its action, which none of the three operation counts
    includes; but the row carries the client's address, so while the store
    accepts writes a failed request from an address that has no row yet
    still raises the unique-users figure by one. *)
Theorem failed_request_counts_as_user `{Platform} (request : Request) (op : Operation)
    (w : World) :
  failing (store w) = false ->
  operation_of request = Some op ->
  status (fst (serve w request)) = 400 ->
  client_host request ∉ ip <$> rows (store w) ->
  exists before after,
    get_stats w = (inr before, w) /\
    get_stats (snd (serve w request)) = (inr after, snd (serve w request)) /\
    action <$> rows (store (snd (serve w request))) =
      ((action <$> rows (store w)) ++ [(op_action op ++ "_error")%string])%list /\
    generations after = generations before /\
    decodings after = decodings before /\
    ocr_extractions after = ocr_extractions before /\
    unique_users after = unique_users before + 1.
Proof.
  intros Hok Hop H400 Hfresh.
  exists (snapshot (store w)), (snapshot (store (snd (serve w request)))).
  rewrite !get_stats_spec. split; [reflexivity|]. split; [reflexivity|].
  destruct (serve_operation_summary request op w Hop) as (allowed & _ & _ & Hserved).
  destruct allowed.
  - destruct Hserved as (_ & [[H200 _] | (caught & _ & Hrow)]).
    + rewrite H200 in H400. discriminate.
    + rewrite Hrow. unfold snapshot, written. rewrite Hok. simpl.
      rewrite !fmap_app, !filter_app, !length_app. simpl.
      rewrite (remove_dups_snoc_fresh _ _ Hfresh).
      split; [reflexivity|]. destruct op; simpl; repeat split; lia.
  - rewrite Hserved in H400. discriminate.
Qed.

Lemma failed_request_counts_as_user_witness :
  let P := Stub.platform true in
  let request := {| client_host := "192.0.2.44"; arrival := 2000; method := POST;
                    path := "/decode"; params := UploadParams "not an image" |} in
  let w := snd (run initial_world traffic) in
  exists before after,
    get_stats w = (inr before, w) /\
    get_stats (snd (serve w request)) = (inr after, snd (serve w request)) /\
    action <$> rows (store (snd (serve w request))) =
      ((action <$> rows (store w)) ++ ["decode_error"])%list /\
    generations after = generations before /\
    decodings after = decodings before /\
    ocr_extractions after = ocr_extractions before /\
    unique_users after = unique_users before + 1.
Proof.
  apply (@failed_request_counts_as_user (Stub.platform true)
           {| client_host := "192.0.2.44"; arrival := 2000; method := POST;
              path := "/decode"; params := UploadParams "not an image" |}
           Decode (snd (run initial_world traffic))).
  - vm_compute. reflexivity.
  - reflexivity.
  - vm_compute. reflexivity.
  - vm_compute. intros Hin. repeat (apply elem_of_cons in Hin as [Hin|Hin]; [discriminate|]).
    now apply elem_of_nil in Hin.
Defined.

(** ** The informational endpoints *)

(** X7: [GET /stats] always answers 200, also when the store is failing
    (then with all-zero figures).  The figures are those of the table as it
    was when the request arrived: the "access" row of the request itself is
    written after the answer is computed and is not counted in it. *)
Theorem stats_answer_precedes_its_access_row `{Platform} (request : Request) (w : World) :
  path request = "/stats" ->
  method request = GET ->
  exists s,
    get_stats w = (inr s, w) /\
    serve w request =
      (JSONResponse 200 (stats_fields s),
       logged (client_host request) "access" "访问 /stats" (set_clock w (arrival request))).
Proof.
  intros Hpath Hmethod. exists (snapshot (store w)). split; [apply get_stats_spec|].
  unfold serve, log_requests, call_next, dispatch, stats. rewrite Hpath, Hmethod.
  run_m. rewrite get_stats_spec. now run_m.
Qed.

Lemma stats_answer_precedes_its_access_row_witness :
  let P := Stub.platform true in
  let request := {| client_host := "192.0.2.44"; arrival := 1100; method := GET;
                    path := "/stats"; params := NoParams |} in
  exists s,
    get_stats initial_world = (inr s, initial_world) /\
    serve initial_world request =
      (JSONResponse 200 (stats_fields s),
       logged "192.0.2.44" "access" "访问 /stats" (set_clock initial_world 1100)).
Proof.
  apply (@stats_answer_precedes_its_access_row (Stub.platform true)
           {| client_host := "192.0.2.44"; arrival := 1100; method := GET;
              path := "/stats"; params := NoParams |} initial_world); reflexivity.
Defined.

Example first_stats_call_reports_nobody :
  let P := Stub.platform true in
  let request t := {| client_host := "192.0.2.44"; arrival := t; method := GET;
                      path := "/stats"; params := NoParams |} in
  let '(r1, w1) := serve initial_world (request 1100) in
  let '(r2, w2) := serve w1 (request 1101) in
  content r1 = Json [("generations", JInt 0); ("decodings", JInt 0);
                     ("ocr_extractions", JInt 0); ("unique_users", JInt 0)] /\
  content r2 = Json [("generations", JInt 0); ("decodings", JInt 0);
                     ("ocr_extractions", JInt 0); ("unique_users", JInt 1)].
Proof. vm_compute. split; reflexivity. Qed.

(** X8: [GET /] answers with the page the template engine renders for
    "index.html" and the current figures, or, when rendering raises
    anything, with 500 and the fixed message; in both cases the request is
    then logged as an access. *)
Theorem home_renders_or_answers_500 `{Platform} (request : Request) (w : World) :
  path request = "/" ->
  method request = GET ->
  exists s,
    get_stats w = (inr s, w) /\
    serve w request =
      (match TemplateResponse "index.html" s with
       | inr page => page
       | inl _ => JSONResponse 500 [("detail", JStr "内部服务器错误")]
       end,
       logged (client_host request) "access" "访问 /" (set_clock w (arrival request))).
Proof.
  intros Hpath Hmethod. exists (snapshot (store w)). split; [apply get_stats_spec|].
  unfold serve, log_requests, call_next, dispatch, home. rewrite Hpath, Hmethod.
  run_m. rewrite get_stats_spec. run_m.
  destruct (TemplateResponse "index.html" (snapshot (store w))); now run_m.
Qed.

Lemma home_renders_or_answers_500_witness :
  let P := Stub.platform true in
  let request := {| client_host := "192.0.2.44"; arrival := 1100; method := GET;
                    path := "/"; params := NoParams |} in
  exists s,
    get_stats initial_world = (inr s, initial_world) /\
    serve initial_world request =
      (match TemplateResponse "index.html" s with
       | inr page => page
       | inl _ => JSONResponse 500 [("detail", JStr "内部服务器错误")]
       end,
       logged "192.0.2.44" "access" "访问 /" (set_clock initial_world 1100)).
Proof.
  apply (@home_renders_or_answers_500 (Stub.platform true)
           {| client_host := "192.0.2.44"; arrival := 1100; method := GET;
              path := "/"; params := NoParams |} initial_world); reflexivity.
Defined.

(** ** Decoding and recognition *)

Section UploadFacts.
Context `{Platform}.


End UploadFacts.

(** X9: a payload that is not empty and does not end with "|compressed"
    is returned exactly as the decoder read it: no base64 or zlib step is
    attempted.  The decoder is called once and the row written is the fixed
    "decode" row, which holds nothing of the decoded text. *)
Theorem plain_payload_is_returned_verbatim `{Platform} (request : Request) (image : bytes)
    (w : World) (data : string) :
  scan image = inr data ->
  is_empty data = false ->
  endswith data "|compressed" = false ->
  decode_qr request image w =
    (inr (JSONResponse 200 [("decoded", JStr data)]),
     logged (client_host request) "decode" "标准解码成功"
       (record_call CallDetectAndDecode w)).
Proof.
  intros Hscan Hempty Hmarker.
  rewrite (decode_qr_scanned request image w data Hscan), Hempty, Hmarker.
  unfold decode_reply. now run_m.
Qed.

Lemma plain_payload_is_returned_verbatim_witness :
  let P := Stub.platform true in
  decode_qr (sample_request "/decode" NoParams) "Qhttps://example.org/?q=1" initial_world =
    (inr (JSONResponse 200 [("decoded", JStr "https://example.org/?q=1")]),
     logged "203.0.113.7" "decode" "标准解码成功"
       (record_call CallDetectAndDecode initial_world)).
Proof.
  apply (@plain_payload_is_returned_verbatim (Stub.platform true)
           (sample_request "/decode" NoParams) "Qhttps://example.org/?q=1" initial_world
           "https://example.org/?q=1"); reflexivity.
Defined.

(** X10: when the decoder finds no symbol (it returns the empty text),
    [decode_qr] answers 400 with the no-symbol message and writes a
    "decode_error" row with that message; no decompression is attempted on
    the empty text. *)
Theorem no_symbol_is_answered_400 `{Platform} (request : Request) (image : bytes)
    (w : World) :
  scan image = inr "" ->
  decode_qr request image w =
    (inl (HTTPException 400 (str (HTTPException 400 "未检测到二维码"))),
     logged (client_host request) "decode_error" (str (HTTPException 400 "未检测到二维码"))
       (record_call CallDetectAndDecode w)).
Proof.
  intros Hscan. rewrite (decode_qr_scanned request image w "" Hscan).
  unfold decode_failure. now run_m.
Qed.

Lemma no_symbol_is_answered_400_witness :
  let P := Stub.platform true in
  decode_qr (sample_request "/decode" NoParams) "Ta page of text" initial_world =
    (inl (HTTPException 400 (str (HTTPException 400 "未检测到二维码"))),
     logged "203.0.113.7" "decode_error" (str (HTTPException 400 "未检测到二维码"))
       (record_call CallDetectAndDecode initial_world)).
Proof.
  apply (@no_symbol_is_answered_400 (Stub.platform true)
           (sample_request "/decode" NoParams) "Ta page of text" initial_world).
  reflexivity.
Defined.

(** X11: an upload that cannot be opened as an image never reaches the
    decoder or the recognizer: [decode_qr] and [ocr_image] answer 400 with
    the text of the exception [Image.open] raised, write the error row of
    their action with that text, and make no capability call. *)
Theorem unreadable_upload_reaches_no_capability `{Platform} (request : Request)
    (image : bytes) (w : World) (e : exn) :
  Image_open image = inl e ->
  decode_qr request image w =
    (inl (HTTPException 400 (str e)),
     logged (client_host request) "decode_error" (str e) w) /\
  ocr_image request image w =
    (inl (HTTPException 400 (str e)),
     logged (client_host request) "ocr_error" (str e) w) /\
  calls (snd (decode_qr request image w)) = calls w /\
  calls (snd (ocr_image request image w)) = calls w.
Proof.
  intros Hopen.
  assert (Hdecode : decode_qr request image w =
            (inl (HTTPException 400 (str e)),
             logged (client_host request) "decode_error" (str e) w)).
  { unfold decode_qr. run_m. rewrite Hopen. now run_m. }
  assert (Hocr : ocr_image request image w =
            (inl (HTTPException 400 (str e)),
             logged (client_host request) "ocr_error" (str e) w)).
  { unfold ocr_image. run_m. rewrite Hopen. now run_m. }
  rewrite Hdecode, Hocr. cbn [snd]. rewrite !logged_calls. auto.
Qed.

Lemma unreadable_upload_reaches_no_capability_witness :
  let P := Stub.platform true in
  let request := sample_request "/decode" NoParams in
  let e := Error "cannot identify image file" in
  decode_qr request "junk" initial_world =
    (inl (HTTPException 400 (str e)), logged "203.0.113.7" "decode_error" (str e) initial_world) /\
  ocr_image request "junk" initial_world =
    (inl (HTTPException 400 (str e)), logged "203.0.113.7" "ocr_error" (str e) initial_world) /\
  calls (snd (decode_qr request "junk" initial_world)) = calls initial_world /\
  calls (snd (ocr_image request "junk" initial_world)) = calls initial_world.
Proof.
  apply (@unreadable_upload_reaches_no_capability (Stub.platform true)
           (sample_request "/decode" NoParams) "junk" initial_world
           (Error "cannot identify image file")).
  reflexivity.
Defined.



(** ** Generation *)

Section GenerateFacts.
Context `{Platform}.

Lemma generate_qr_success_row (request : Request) (text : string) (compress : bool)
    (color bg_color : string) (logo : option bytes) (w : World) :
  match fst (generate_qr request text compress color bg_color logo w) with
  | inr _ =>
      store (snd (generate_qr request text compress color bg_color logo w)) =
        written (store w) (clock w) (client_host request) "generate"
          (generate_details text compress)
  | inl _ => True
  end.
Proof.
  unfold generate_qr, generate_details.
  repeat (run_m; split_match); run_m; subst; rewrite ?logged_spec; simpl;
    try exact I; try discriminate; reflexivity.
Qed.

Lemma generate_qr_pastes_logo (request : Request) (text : string) (compress : bool)
    (color bg_color : string) (file : bytes) (data : string) (w : World)
    (img logo1 logo2 logo3 pasted : Image) (png : bytes) :
  is_empty text = false ->
  payload text compress = inr data ->
  fst (make (first_try data)) = inr tt ->
  make_image (after_make (first_try data)) color bg_color = inr img ->
  Image_open file = inr logo1 ->
  convert logo1 "RGBA" = inr logo2 ->
  resize logo2 (logo_side (Image_size img), logo_side (Image_size img)) = inr logo3 ->
  paste img logo3 (logo_corner (Image_size img)) logo3 = inr pasted ->
  save pasted "PNG" = inr png ->
  fst (generate_qr request text compress color bg_color (Some file) w) =
    inr (StreamingResponse png "image/png").
Proof.
  intros Hempty Hpayload Hfirst Himg Hopen Hconvert Hresize Hpaste Hsave.
  unfold logo_side, logo_corner, logo_side in *.
  unfold generate_qr, payload, first_try in *. rewrite Hempty.
  destruct compress; run_m.
  - destruct (utf8_decode _) as [e'|b64]; [discriminate|]. injection Hpayload as <-.
    rewrite Hfirst. run_m. rewrite Himg, Hopen. run_m. rewrite Hconvert. run_m.
    rewrite Hresize. run_m. rewrite Hpaste. run_m. rewrite Hsave. now run_m.
  - injection Hpayload as <-.
    rewrite Hfirst. run_m. rewrite Himg, Hopen. run_m. rewrite Hconvert. run_m.
    rewrite Hresize. run_m. rewrite Hpaste. run_m. rewrite Hsave. now run_m.
Qed.

End GenerateFacts.

(** X13: a logo is resized to a square whose side is a quarter (rounded
    down) of the shorter side of the QR image and pasted, with itself as
    the mask, at the corner that centres it; for any image size the square
    lies inside the image and is centred to within one pixel.  The colours
    are handed to the drawing call as fill first, background second. *)
Theorem logo_is_centred_inside `{Platform} (request : Request) (text : string)
    (compress : bool) (color bg_color : string) (file : bytes) (data : string) (w : World)
    (img logo1 logo2 logo3 pasted : Image) (png : bytes) :
  is_empty text = false ->
  payload text compress = inr data ->
  fst (make (first_try data)) = inr tt ->
  make_image (after_make (first_try data)) color bg_color = inr img ->
  Image_open file = inr logo1 ->
  convert logo1 "RGBA" = inr logo2 ->
  resize logo2 (logo_side (Image_size img), logo_side (Image_size img)) = inr logo3 ->
  paste img logo3 (logo_corner (Image_size img)) logo3 = inr pasted ->
  save pasted "PNG" = inr png ->
  fst (generate_qr request text compress color bg_color (Some file) w) =
    inr (StreamingResponse png "image/png") /\
  (forall width height, 0 <= width -> 0 <= height ->
     let side := logo_side (width, height) in
     let x := fst (logo_corner (width, height)) in
     let y := snd (logo_corner (width, height)) in
     0 <= side /\ 4 * side <= Z.min width height < 4 * side + 4 /\
     0 <= x /\ x + side <= width /\ 0 <= y /\ y + side <= height /\
     0 <= (width - (x + side)) - x <= 1 /\
     0 <= (height - (y + side)) - y <= 1).
Proof.
  intros Hempty Hpayload Hfirst Himg Hopen Hconvert Hresize Hpaste Hsave.
  split.
  - now apply (generate_qr_pastes_logo request text compress color bg_color file data w
                 img logo1 logo2 logo3 pasted png).
  - intros width height Hw Hh. unfold logo_corner, logo_side. cbn [fst snd].
    Z.to_euclidean_division_equations. lia.
Qed.

Lemma logo_is_centred_inside_witness :
  let P := Stub.platform true in
  fst (generate_qr (sample_request "/generate" NoParams) "hello" false "#112233" "#FFFFFF"
         (Some "Qlogo") initial_world) =
    inr (StreamingResponse "Qhello" "image/png") /\
  (forall width height, 0 <= width -> 0 <= height ->
     let side := logo_side (width, height) in
     let x := fst (logo_corner (width, height)) in
     let y := snd (logo_corner (width, height)) in
     0 <= side /\ 4 * side <= Z.min width height < 4 * side + 4 /\
     0 <= x /\ x + side <= width /\ 0 <= y /\ y + side <= height /\
     0 <= (width - (x + side)) - x <= 1 /\
     0 <= (height - (y + side)) - y <= 1).
Proof.
  apply (@logo_is_centred_inside (Stub.platform true) (sample_request "/generate" NoParams)
           "hello" false "#112233" "#FFFFFF" "Qlogo" "hello" initial_world
           (Stub.Symbol "hello") (Stub.Symbol "logo") (Stub.Symbol "logo")
           (Stub.Symbol "logo") (Stub.Symbol "hello") "Qhello"); reflexivity.
Defined.

Example logo_box_290 :
  logo_side (290, 290) = 72 /\ logo_corner (290, 290) = (109, 109).
Proof. split; reflexivity. Qed.

(** X14: whenever [generate_qr] returns an image, the row it wrote is the
    "generate" row of the client, and its details are the length of the
    text in characters and the compression flag, nothing else: the text
    itself is not stored. *)
Theorem generation_row_holds_length_only `{Platform} (request : Request) (text : string)
    (compress : bool) (color bg_color : string) (logo : option bytes)
    (w w' : World) (response : Response) :
  generate_qr request text compress color bg_color logo w = (inr response, w') ->
  store w' =
    written (store w) (clock w) (client_host request) "generate"
      ("文本长度: " ++ str_of_int (len text) ++ ", 压缩: " ++ str_of_bool compress) /\
  status response = 200.
Proof.
  intros Hgen.
  pose proof (generate_qr_success_row request text compress color bg_color logo w) as Hrow.
  pose proof (generate_qr_handled request text compress color bg_color logo w) as Hhandled.
  unfold handled in Hhandled. rewrite Hgen in Hrow, Hhandled. cbn [fst snd] in *.
  split; [exact Hrow | exact Hhandled].
Qed.

Lemma generation_row_holds_length_only_witness :
  let P := Stub.platform true in
  let w := set_clock initial_world 1000 in
  store (snd (generate_qr (sample_request "/generate" NoParams) "文本 text" true
                DEFAULT_COLOR DEFAULT_BG_COLOR None w)) =
    written (store w) 1000 "203.0.113.7" "generate" "文本长度: 7, 压缩: True" /\
  status (StreamingResponse "Q78e69687e69cac2074657874|compressed" "image/png") = 200.
Proof.
  cbv zeta.
  apply (@generation_row_holds_length_only (Stub.platform true)
           (sample_request "/generate" NoParams) "文本 text" true
           DEFAULT_COLOR DEFAULT_BG_COLOR None (set_clock initial_world 1000)).
  vm_compute. reflexivity.
Defined.

(** X15: without compression the encoder is given the text itself, as the
    only segment of a symbol with box size 10 and border 4 whose version is
    left for the library to choose; it is called once, or twice when the
    first call overflows, and on nothing else. *)
Theorem plain_text_is_encoded_verbatim `{Platform} (request : Request) (text : string)
    (color bg_color : string) (logo : option bytes) (w : World) :
  is_empty text = false ->
  calls (snd (generate_qr request text false color bg_color logo w)) =
    (calls w ++ encoder_calls text)%list /\
  Forall (fun c => exists qr, c = CallMake qr /\ data_list qr = [text] /\
                              box_size qr = 10 /\ border qr = 4)
         (encoder_calls text) /\
  version (first_try text) = None /\
  (1 <= length (encoder_calls text) <= 2)%nat.
Proof.
  intros Hempty. split.
  { rewrite generate_qr_calls, Hempty. reflexivity. }
  unfold encoder_calls. destruct (overflows _); simpl.
  - split; [|split; [reflexivity | lia]].
    repeat constructor; eexists; repeat split; reflexivity.
  - split; [|split; [reflexivity | lia]].
    repeat constructor; eexists; repeat split; reflexivity.
Qed.

Lemma plain_text_is_encoded_verbatim_witness :
  let P := Stub.platform true in
  calls (snd (generate_qr (sample_request "/generate" NoParams) "hello" false
                DEFAULT_COLOR DEFAULT_BG_COLOR None initial_world)) =
    (calls initial_world ++ encoder_calls "hello")%list /\
  Forall (fun c => exists qr, c = CallMake qr /\ data_list qr = ["hello"] /\
                              box_size qr = 10 /\ border qr = 4)
         (encoder_calls "hello") /\
  version (first_try "hello") = None /\
  (1 <= length (encoder_calls "hello") <= 2)%nat.
Proof.
  apply (@plain_text_is_encoded_verbatim (Stub.platform true)). reflexivity.
Defined.

(** X16: [GET /logs/export] answers with the CSV of the table as it was
    when the request arrived, so the "access" row of the export request
    itself is not in the file it returns; when the query fails it answers
    500 with the fixed message, and the table stays as it is. *)
Theorem export_precedes_its_access_row `{Platform} (request : Request) (w : World) :
  path request = "/logs/export" ->
  method request = GET ->
  serve w request =
    ((if failing (store w)
      then JSONResponse 500 [("detail", JStr "日志导出失败")]
      else StreamingResponse
             (writerow CSV_HEADER ++ writerows (map row_cells (rows (store w)))) "text/csv"),
     logged (client_host request) "access" "访问 /logs/export"
       (set_clock w (arrival request))) /\
  (failing (store w) = true -> store (snd (serve w request)) = store w) /\
  (failing (store w) = false ->
     rows (store (snd (serve w request))) =
       (rows (store w) ++
        [ {| id := last_id (store w) + 1; ip := client_host request;
             timestamp := arrival request; action := "access";
             details := "访问 /logs/export" |} ])%list).
Proof.
  intros Hpath Hmethod.
  assert (Hserve : serve w request =
    ((if failing (store w)
      then JSONResponse 500 [("detail", JStr "日志导出失败")]
      else StreamingResponse
             (writerow CSV_HEADER ++ writerows (map row_cells (rows (store w)))) "text/csv"),
     logged (client_host request) "access" "访问 /logs/export"
       (set_clock w (arrival request)))).
  { unfold serve, log_requests, call_next, dispatch, export_logs, select_all.
    rewrite Hpath, Hmethod. run_m. destruct (failing (store w)); now run_m. }
  split; [exact Hserve|]. rewrite Hserve. cbn [snd]. rewrite logged_store.
  unfold written. simpl. split; intros ->; reflexivity.
Qed.

Lemma export_precedes_its_access_row_witness :
  let P := Stub.platform true in
  let request := {| client_host := "192.0.2.44"; arrival := 1100; method := GET;
                    path := "/logs/export"; params := NoParams |} in
  let w := initial_world in
  serve w request =
    ((if failing (store w)
      then JSONResponse 500 [("detail", JStr "日志导出失败")]
      else StreamingResponse
             (writerow CSV_HEADER ++ writerows (map row_cells (rows (store w)))) "text/csv"),
     logged (client_host request) "access" "访问 /logs/export"
       (set_clock w (arrival request))) /\
  (failing (store w) = true -> store (snd (serve w request)) = store w) /\
  (failing (store w) = false ->
     rows (store (snd (serve w request))) =
       (rows (store w) ++
        [ {| id := last_id (store w) + 1; ip := client_host request;
             timestamp := arrival request; action := "access";
             details := "访问 /logs/export" |} ])%list).
Proof.
  apply (@export_precedes_its_access_row (Stub.platform true)
           {| client_host := "192.0.2.44"; arrival := 1100; method := GET;
              path := "/logs/export"; params := NoParams |} initial_world); reflexivity.
Defined.
